(** * Sample handler: a shallow embedding of [sample_handler.py]

    The script reads a C/C++ header holding one array literal
    ([Filereader]), reduces its sample rate and re-encodes the amplitudes
    ([Converter]), and hands the result to the console, a plot or a wave
    file ([__main__]).

    Conventions of the embedding.
    - Python integers are [Z].
    - Text is a [string] of code points below 256; a file is read with
      universal newlines, as [open(file)] does.
    - A raised exception is the [Err] branch of [result]; the loops stop at
      the first one, as the interpreter does.
    - [sample_sum] starts as the float [0.0] and [int(sample_sum / ratio)]
      goes through a float: [PyFloat] gives the binary64 rounding to
      nearest, ties to even, and the [OverflowError] of values no float
      holds.  Below 2^53 the rounding is exact and the truncated quotient
      is [Z.quot].
    - [open] yields the text of the file or raises an [OSError]; the
      console and the plot are recorded as events and taken to succeed;
      the wave writer, NumPy and soundfile, succeeds or fails as told from
      outside. *)

From Stdlib Require Import String Ascii ZArith List Bool Arith Lia.
From Stdlib Require DecimalString HexadecimalString.
From Stdlib Require DecimalFacts DecimalPos DecimalN.
From Stdlib Require HexadecimalPos HexadecimalN.
Import ListNotations.

(* ------------------------------------------------------------------ *)
(** ** Exceptions and the error monad *)
(* ------------------------------------------------------------------ *)

Inductive exception : Type :=
| IndexError
| ValueError
| ZeroDivisionError
| OverflowError
| OSError
| LibraryError (name : string).

Inductive result (A : Type) : Type :=
| Ok (a : A)
| Err (e : exception).

Arguments Ok {A} a.
Arguments Err {A} e.

Definition bind {A B : Type} (m : result A) (k : A -> result B) : result B :=
  match m with
  | Ok a => k a
  | Err e => Err e
  end.

Declare Scope py_scope.
Delimit Scope py_scope with py.
Notation "x <- m ;; k" := (bind m (fun x => k))
  (at level 61, m at next level, right associativity) : py_scope.
Notation "' pat <- m ;; k" := (bind m (fun x => match x with pat => k end))
  (at level 61, pat pattern, m at next level, right associativity) : py_scope.

Fixpoint mapM {A B : Type} (f : A -> result B) (l : list A) : result (list B) :=
  match l with
  | [] => Ok []
  | a :: l' =>
      (b <- f a ;;
       bs <- mapM f l' ;;
       Ok (b :: bs))%py
  end.

(* ------------------------------------------------------------------ *)
(** ** The string methods the reader uses *)
(* ------------------------------------------------------------------ *)

Module PyStr.

Local Open Scope string_scope.

Definition code (c : ascii) : nat := nat_of_ascii c.

(** [str.isspace] on one code point below 256. *)
Definition isspace (c : ascii) : bool :=
  let n := code c in
  (((9 <=? n) && (n <=? 13)) || ((28 <=? n) && (n <=? 32))
   || (n =? 133) || (n =? 160))%nat.

(** [s.startswith(p)]. *)
Fixpoint startswith (s p : string) : bool :=
  match p with
  | "" => true
  | String b p' =>
      match s with
      | "" => false
      | String a s' => Ascii.eqb a b && startswith s' p'
      end
  end.

(** [s.startswith((p1, p2, ...))]. *)
Definition startswith_any (s : string) (ps : list string) : bool :=
  existsb (startswith s) ps.

Fixpoint lstrip (s : string) : string :=
  match s with
  | String c s' => if isspace c then lstrip s' else s
  | "" => ""
  end.

Fixpoint rstrip (s : string) : string :=
  match s with
  | String c s' =>
      match rstrip s' with
      | "" => if isspace c then "" else String c ""
      | r => String c r
      end
  | "" => ""
  end.

(** [s.strip()]. *)
Definition strip (s : string) : string := rstrip (lstrip s).

(** [s.split(sep)] for a one-character separator: never the empty list. *)
Fixpoint split (sep : ascii) (s : string) : list string :=
  match s with
  | "" => [""]
  | String c s' =>
      if Ascii.eqb c sep then "" :: split sep s'
      else match split sep s' with
           | h :: t => String c h :: t
           | [] => [String c ""]
           end
  end.

(** Truth value of a string: [not s] holds of the empty string only. *)
Definition truthy (s : string) : bool :=
  match s with "" => false | _ => true end.

(** Universal newlines, the default of [open]: a carriage return, alone
    or before a line feed, is read as one line feed. *)
Fixpoint universal_newlines (s : string) : string :=
  match s with
  | "" => ""
  | String c s' =>
      if Ascii.eqb c "013"%char
      then match s' with
           | String c' s'' =>
               if Ascii.eqb c' "010"%char
               then String "010"%char (universal_newlines s'')
               else String "010"%char (universal_newlines s')
           | "" => String "010"%char ""
           end
      else String c (universal_newlines s')
  end.

(** A text cut after each line feed: each piece keeps its line feed, the
    last one may lack it. *)
Fixpoint split_lines (s : string) : list string :=
  match s with
  | "" => []
  | String c s' =>
      if Ascii.eqb c "010"%char then String c "" :: split_lines s'
      else match split_lines s' with
           | h :: t => String c h :: t
           | [] => [String c ""]
           end
  end.

(** The lines a text-mode file object yields. *)
Definition lines (s : string) : list string :=
  split_lines (universal_newlines s).

End PyStr.

(* ------------------------------------------------------------------ *)
(** ** [int(s)] and [int(s, 16)] *)
(* ------------------------------------------------------------------ *)

Module PyInt.

Local Open Scope Z_scope.

(** White space [int] skips around the literal: the C [isspace] set, and
    the two Latin-1 spaces, which the conversion to ASCII turns into
    blanks.  The separators 28..31 are not skipped. *)
Definition isspace (c : ascii) : bool :=
  let n := nat_of_ascii c in
  (((9 <=? n) && (n <=? 13)) || (n =? 32) || (n =? 133) || (n =? 160))%nat.

(** Value of a digit in bases up to 36. *)
Definition digit_value (c : ascii) : option Z :=
  let n := nat_of_ascii c in
  if ((48 <=? n) && (n <=? 57))%nat then Some (Z.of_nat n - 48)
  else if ((97 <=? n) && (n <=? 122))%nat then Some (Z.of_nat n - 87)
  else if ((65 <=? n) && (n <=? 90))%nat then Some (Z.of_nat n - 55)
  else None.

Definition is_underscore (c : ascii) : bool := Ascii.eqb c "_"%char.

Fixpoint skip_space (s : string) : string :=
  match s with
  | String c s' => if isspace c then skip_space s' else s
  | EmptyString => EmptyString
  end.

(** The digit scan: digits below the base with single underscores between
    them.  Returns the value, the number of digits and the unread rest. *)
Fixpoint scan_digits (base : Z) (s : string) (prev_underscore : bool)
         (digits : nat) (acc : Z) : result (Z * nat * string) :=
  let stop :=
    if prev_underscore then Err ValueError else Ok (acc, digits, s) in
  match s with
  | String c s' =>
      if is_underscore c then
        if prev_underscore then Err ValueError
        else scan_digits base s' true digits acc
      else
        match digit_value c with
        | Some d =>
            if d <? base
            then scan_digits base s' false (S digits) (acc * base + d)
            else stop
        | None => stop
        end
  | EmptyString => stop
  end.

Definition skip_sign (s : string) : Z * string :=
  match s with
  | String "+"%char s' => (1, s')
  | String "-"%char s' => (-1, s')
  | _ => (1, s)
  end.

(** The [0x] / [0X] prefix of base 16, and the one underscore allowed
    after it. *)
Definition skip_prefix (base : Z) (s : string) : string :=
  match s with
  | String "0"%char (String x s') =>
      if (base =? 16) && (Ascii.eqb x "x"%char || Ascii.eqb x "X"%char)
      then match s' with
           | String "_"%char s'' => s''
           | _ => s'
           end
      else s
  | _ => s
  end.

(** The default of [sys.int_max_str_digits]. *)
Definition int_max_str_digits : Z := 4300.

(** The bases whose conversion is linear: no limit on the digits. *)
Definition binary_base (base : Z) : bool :=
  existsb (Z.eqb base) [2; 4; 8; 16; 32].

(** A literal of more digits than the limit is refused, except in a
    binary base. *)
Definition too_many_digits (base : Z) (digits : nat) : bool :=
  negb (binary_base base) && (int_max_str_digits <? Z.of_nat digits).

(** [int(s, base)] for base 10 and base 16. *)
Definition parse (base : Z) (s : string) : result Z :=
  let '(sign, s1) := skip_sign (skip_space s) in
  let s2 := skip_prefix base s1 in
  match s2 with
  | String "_"%char _ => Err ValueError
  | _ =>
      ('(v, digits, rest) <- scan_digits base s2 false 0 0 ;;
       match digits, skip_space rest with
       | O, _ => Err ValueError
       | _, EmptyString =>
           if too_many_digits base digits then Err ValueError
           else Ok (sign * v)
       | _, _ => Err ValueError
       end)%py
  end.

End PyInt.

(* ------------------------------------------------------------------ *)
(** ** FILE READER MODULE *)
(* ------------------------------------------------------------------ *)

Module Filereader.

Local Open Scope string_scope.

(** The leading characters that select the decimal branch. *)
Definition decimal_prefixes : list string :=
  ["1"; "2"; "3"; "4"; "5"; "6"; "7"; "8"; "9"].

(** [items[-1]] and [items[0]]: an [IndexError] on the empty list. *)
Definition item_last (items : list string) : result string :=
  match rev items with
  | x :: _ => Ok x
  | [] => Err IndexError
  end.

Definition item_first (items : list string) : result string :=
  match items with
  | x :: _ => Ok x
  | [] => Err IndexError
  end.

(** [Filereader.__process_line]: one line of the array, as integers. *)
Definition __process_line (line : string) : result (list Z) :=
  let line := PyStr.strip line in
  let items := PyStr.split "," line in
  (last <- item_last items ;;
   let items := if PyStr.truthy last then items else removelast items in
   first <- item_first items ;;
   if PyStr.startswith first "0x" then mapM (PyInt.parse 16) items
   else if PyStr.startswith_any first decimal_prefixes
        then mapM (PyInt.parse 10) items
        else Ok [])%py.

(** The body of [for line in f]: the flag [is_processing] and the list
    [out] are the loop state, [break] returns what was collected. *)
Fixpoint read_lines (startswith : string) (is_processing : bool)
         (out : list Z) (lines : list string) : result (list Z) :=
  match lines with
  | [] => Ok out
  | line :: rest =>
      if PyStr.startswith line startswith
      then read_lines startswith true out rest
      else if PyStr.startswith line "};" then Ok out
      else if is_processing then
        (vs <- __process_line line ;;
         read_lines startswith is_processing (out ++ vs) rest)%py
      else read_lines startswith is_processing out rest
  end.

(** A file system: the text of each path that [open] opens; at the others
    it raises an [OSError] ([FileNotFoundError], [IsADirectoryError],
    [PermissionError], ...). *)
Definition filesystem : Type := string -> option string.

(** [Filereader.read_file]. *)
Definition read_file (fs : filesystem) (file : string) (startswith : string)
  : result (list Z) :=
  match fs file with
  | None => Err OSError
  | Some text => read_lines startswith false [] (PyStr.lines text)
  end.

Definition default_startswith : string := "static const".

End Filereader.

(* ------------------------------------------------------------------ *)
(** ** SAMPLE CONVERSION MODULE *)
(* ------------------------------------------------------------------ *)

Module PyFloat.

Local Open Scope Z_scope.

(** The floats of the accumulator: it only ever adds integers, so a finite
    one holds an integer. *)
Inductive float : Type :=
| Finite (v : Z)
| Infinity (negative : bool)
| NaN.

(** [2^s] for [s >= 0], and 1 below. *)
Definition pow2 (s : Z) : Z := 2 ^ Z.max s 0.

(** The integer nearest to [n / d], ties to the even one ([0 <= n],
    [0 < d]). *)
Definition round_half_even (n d : Z) : Z :=
  let q := n / d in
  let r := n mod d in
  if 2 * r <? d then q
  else if d <? 2 * r then q + 1
       else if Z.even q then q else q + 1.

(** [floor (log2 (n / d))] for positive [n] and [d]. *)
Definition exponent (n d : Z) : Z :=
  let e := Z.log2 n - Z.log2 d in
  if d * pow2 e <=? n * pow2 (- e) then e else e - 1.

(** [n / d] rounded to binary64, as [(k, t)] for the value [k * 2^t]: 53
    significant bits, and no bit below [2^-1074]. *)
Definition nearest (n d : Z) : Z * Z :=
  let t := Z.max (exponent n d - 52) (-1074) in
  (round_half_even (n * pow2 (- t)) (d * pow2 t), t).

(** [k * 2^t] is [2^1024] or more: beyond the largest float. *)
Definition overflows (k t : Z) : bool :=
  (0 <? k) && (1024 <=? Z.log2 k + t).

(** The integer part of [k * 2^t]. *)
Definition truncate (k t : Z) : Z := k * pow2 t / pow2 (- t).

(** [int(a / b)] for integers [a] and [b <> 0]: the quotient correctly
    rounded to a float, then truncated toward zero. *)
Definition int_of_quotient (a b : Z) : result Z :=
  if a =? 0 then Ok 0
  else
    let '(k, t) := nearest (Z.abs a) (Z.abs b) in
    if overflows k t then Err OverflowError
    else Ok (Z.sgn a * Z.sgn b * truncate k t).

(** The value of [float(x)] for an integer [x]: [x] rounded to binary64,
    which is an integer again. *)
Definition of_int (x : Z) : result Z := int_of_quotient x 1.

(** The float nearest to the integer [x], an infinity when [x] is out of
    range. *)
Definition round (x : Z) : float :=
  match of_int x with
  | Ok v => Finite v
  | Err _ => Infinity (x <? 0)
  end.

(** [f + g]. *)
Definition add (f g : float) : float :=
  match f, g with
  | Finite a, Finite b => round (a + b)
  | NaN, _ | _, NaN => NaN
  | Infinity s, Finite _ => Infinity s
  | Finite _, Infinity s => Infinity s
  | Infinity s1, Infinity s2 => if Bool.eqb s1 s2 then Infinity s1 else NaN
  end.

(** [int(f / ratio)] for a float [f] and an integer [ratio]: the ratio is
    converted first, a zero divisor is refused, and [int] refuses what is
    not finite. *)
Definition int_of_float_quotient (f : float) (ratio : Z) : result Z :=
  (r <- of_int ratio ;;
   if r =? 0 then Err ZeroDivisionError
   else match f with
        | Finite a => int_of_quotient a r
        | Infinity _ => Err OverflowError
        | NaN => Err ValueError
        end)%py.

End PyFloat.

Module Converter.

Local Open Scope Z_scope.

(** What [sample_sum] holds: the float it starts as, or the integer it is
    from the first [sample_sum = 0] on. *)
Inductive number : Type :=
| Int (z : Z)
| Float (f : PyFloat.float).

(** [sample_sum + sample_data[i]]. *)
Definition add_sample (sample_sum : number) (x : Z) : result number :=
  match sample_sum with
  | Int a => Ok (Int (a + x))
  | Float f =>
      (fx <- PyFloat.of_int x ;;
       Ok (Float (PyFloat.add f (PyFloat.Finite fx))))%py
  end.

(** [int(sample_sum / ratio)]. *)
Definition int_truediv (sample_sum : number) (ratio : Z) : result Z :=
  match sample_sum with
  | Int a =>
      if ratio =? 0 then Err ZeroDivisionError
      else PyFloat.int_of_quotient a ratio
  | Float f => PyFloat.int_of_float_quotient f ratio
  end.

(** State of the loop of [reduce_samplerate] between two iterations. *)
Record reduce_state : Type := mk_reduce_state {
  out : list Z;
  sample_sum : number
}.

(** One iteration at index [i] on the element [x = sample_data[i]]:
    [i % ratio] raises on a zero ratio, after the addition. *)
Definition reduce_step (ratio : Z) (st : reduce_state) (i : Z) (x : Z)
  : result reduce_state :=
  (sample_sum <- add_sample (sample_sum st) x ;;
   if ratio =? 0 then Err ZeroDivisionError
   else if i mod ratio =? 0
        then (q <- int_truediv sample_sum ratio ;;
              Ok (mk_reduce_state (out st ++ [q]) (Int 0)))
        else Ok (mk_reduce_state (out st) sample_sum))%py.

(** The loop [for i in range(len(sample_data))], from index [i] on. *)
Fixpoint reduce_loop (ratio : Z) (i : Z) (st : reduce_state)
         (sample_data : list Z) : result reduce_state :=
  match sample_data with
  | [] => Ok st
  | x :: rest =>
      (st' <- reduce_step ratio st i x ;;
       reduce_loop ratio (i + 1) st' rest)%py
  end.

(** [out = []] and [sample_sum = 0.0]. *)
Definition initial_state : reduce_state :=
  mk_reduce_state [] (Float (PyFloat.Finite 0)).

(** [Converter.reduce_samplerate]. *)
Definition reduce_samplerate (sample_data : list Z) (ratio : Z)
  : result (list Z) :=
  (st <- reduce_loop ratio 0 initial_state sample_data ;;
   Ok (out st))%py.

(** The value appended for one sample: [~v] is [Z.lnot v]. *)
Definition twos_complement_value (max_value : Z) (current_sample : Z) : Z :=
  if current_sample >? max_value
  then current_sample - (max_value + 1)
  else Z.abs (Z.lnot current_sample) + max_value.

(** The loop of [twos_complement], appending to [out]. *)
Fixpoint twos_complement_loop (max_value : Z) (out : list Z)
         (sample_data : list Z) : list Z :=
  match sample_data with
  | [] => out
  | current_sample :: rest =>
      twos_complement_loop max_value
        (out ++ [twos_complement_value max_value current_sample]) rest
  end.

Definition default_max_value : Z := 0x7F.

(** [Converter.twos_complement]. *)
Definition twos_complement (sample_data : list Z) (max_value : Z) : list Z :=
  twos_complement_loop max_value [] sample_data.

End Converter.

(* ------------------------------------------------------------------ *)
(** ** The driver ([__main__]) *)
(* ------------------------------------------------------------------ *)

Module Main.

Local Open Scope string_scope.
Local Open Scope list_scope.

(** The namespace [parse_args] returns.  An option that was not given is
    [None] (or [false] for a [store_true] flag): argparse sets every
    destination, absent ones to their default. *)
Record Namespace : Type := mk_Namespace {
  p : bool;
  plt : bool;
  path : string;
  dec : string;
  cut : option Z;
  ratio : option Z;
  t : bool;
  wb : option string;
  sr : option Z
}.

(** The keys of [vars(args)]: one per declared destination, whatever the
    command line was. *)
Definition vars (args : Namespace) : list string :=
  ["p"; "plt"; "path"; "dec"; "cut"; "ratio"; "t"; "wb"; "sr"].

Definition key_in (k : string) (keys : list string) : bool :=
  existsb (String.eqb k) keys.

(** What the program does to the outside, in order. *)
Inductive event : Type :=
| FileRead (file : string)
| ConsolePrint (sample : list Z)
| WavefileWrite (sample_data : list Z) (file : string) (samplerate : option Z)
| PlotShow (sample : list Z).

(** How the run ends: [parser.error] exits with the usage message, an
    uncaught exception ends the run, or the script reaches its end. *)
Inductive outcome : Type :=
| UsageError (message : string)
| Raised (e : exception)
| Finished.

(** Truth value of an optional integer and of an optional string. *)
Definition truthy_int (o : option Z) : bool :=
  match o with
  | Some n => negb (n =? 0)%Z
  | None => false
  end.

Definition truthy_str (o : option string) : bool :=
  match o with
  | Some s => PyStr.truthy s
  | None => false
  end.

(** The slice [l[:stop]]. *)
Definition slice_to {A : Type} (l : list A) (stop : Z) : list A :=
  if (stop <? 0)%Z
  then firstn (Z.to_nat (Z.of_nat (List.length l) + stop)) l
  else firstn (Z.to_nat stop) l.

Section Driver.

(** [Writeback.write_wavefile] is NumPy and soundfile: the embedding
    records the call and takes its success or failure from outside. *)
Variable write_wavefile : list Z -> string -> option Z -> option exception.

Variable fs : Filereader.filesystem.

(** The steps after the array is read and cut. *)
Definition run_pipeline (args : Namespace) (trace : list event)
           (sample : list Z) : list event * outcome :=
  match
    (if truthy_int (ratio args)
     then Converter.reduce_samplerate sample
            (match ratio args with Some r => r | None => 0%Z end)
     else Ok sample)
  with
  | Err e => (trace, Raised e)
  | Ok sample =>
      let sample :=
        if t args
        then Converter.twos_complement sample Converter.default_max_value
        else sample in
      let trace := if p args then trace ++ [ConsolePrint sample] else trace in
      let writeback :=
        if truthy_str (wb args)
        then
          let data :=
            Converter.twos_complement sample Converter.default_max_value in
          let file := match wb args with Some w => w | None => "" end in
          (trace ++ [WavefileWrite data file (sr args)],
           write_wavefile data file (sr args))
        else (trace, None) in
      match writeback with
      | (trace, Some e) => (trace, Raised e)
      | (trace, None) =>
          if plt args then (trace ++ [PlotShow sample], Finished)
          else (trace, Finished)
      end
  end.

(** The script from [parse_args] on. *)
Definition main (args : Namespace) : list event * outcome :=
  if key_in "wb" (vars args) && negb (key_in "sr" (vars args))
  then ([], UsageError "Sample Writeback requires a samplerate specification")
  else
    let trace := [FileRead (path args)] in
    match Filereader.read_file fs (path args) (dec args) with
    | Err e => (trace, Raised e)
    | Ok sample =>
        let sample :=
          if truthy_int (cut args)
          then slice_to sample
                 (- match cut args with Some c => c | None => 0%Z end)
          else sample in
        run_pipeline args trace sample
    end.

End Driver.

End Main.

(* ------------------------------------------------------------------ *)
(** ** Descriptions of the rate reducer, to compare the loop with *)
(* ------------------------------------------------------------------ *)

Module Window.

Local Open Scope Z_scope.

(** The index [i] is one where the reducer emits. *)
Definition is_boundary (ratio : Z) (i : nat) : bool :=
  Z.of_nat i mod ratio =? 0.

(** The running accumulator just before element [i] is added: zero at the
    start and after each emission. *)
Fixpoint acc_before (data : list Z) (ratio : Z) (i : nat) : Z :=
  match i with
  | O => 0
  | S j =>
      if is_boundary ratio j then 0
      else acc_before data ratio j + nth j data 0
  end.

(** The running accumulator once element [i] is added. *)
Definition acc_at (data : list Z) (ratio : Z) (i : nat) : Z :=
  acc_before data ratio i + nth i data 0.

(** One emission per boundary index, in increasing index order. *)
Definition emissions (data : list Z) (ratio : Z) : list Z :=
  map (fun i => acc_at data ratio i ÷ ratio)
      (filter (is_boundary ratio) (seq 0 (length data))).

(** The accumulator once element [i] is added, as the code holds it: the
    float [0.0 + data[0]] at index 0, an integer from then on. *)
Definition accumulator (data : list Z) (ratio : Z) (i : nat)
  : result Converter.number :=
  match i with
  | O =>
      Converter.add_sample (Converter.Float (PyFloat.Finite 0)) (nth 0 data 0)
  | S _ => Ok (Converter.Int (acc_at data ratio i))
  end.

(** What is emitted at the boundary index [i]: [int] of the accumulator
    divided by the ratio. *)
Definition emission (data : list Z) (ratio : Z) (i : nat) : result Z :=
  (s <- accumulator data ratio i ;; Converter.int_truediv s ratio)%py.

(** The same for a block of integers summed up. *)
Definition block_emission (ratio : Z) (blk : list Z) : result Z :=
  PyFloat.int_of_quotient (fold_right Z.add 0 blk) ratio.

(** The accumulator the loop holds once a whole prefix [data] is read. *)
Definition accumulator_after (data : list Z) (ratio : Z)
  : Converter.number :=
  match data with
  | [] => Converter.Float (PyFloat.Finite 0)
  | _ => Converter.Int (acc_before data ratio (length data))
  end.

Definition sum (l : list Z) : Z := fold_right Z.add 0 l.

(** The complete blocks of [n] consecutive elements of [l], in order. *)
Definition blocks (n : nat) (l : list Z) : list (list Z) :=
  map (fun k => firstn n (skipn (k * n) l)) (seq 0 (length l / n)).

(** Number of elements the reducer emits on an input of length [n]. *)
Definition emission_count (n : nat) (ratio : Z) : nat :=
  match n with
  | O => O
  | S m => S (m / Z.abs_nat ratio)
  end.

End Window.

(** A string of white space only (the empty string included). *)
Fixpoint isblank (s : string) : bool :=
  match s with
  | EmptyString => true
  | String c s' => PyStr.isspace c && isblank s'
  end.

(** A line that neither opens nor closes the array. *)
Definition plain_line (startswith line : string) : Prop :=
  PyStr.startswith line startswith = false
  /\ PyStr.startswith line "};" = false.

(* ------------------------------------------------------------------ *)
(** ** Header files and command lines used as examples *)
(* ------------------------------------------------------------------ *)

Module Samples.

Local Open Scope string_scope.

Definition nl : string := String "010"%char "".

Definition declaration : string :=
  "static const unsigned char sample_data[] = {" ++ nl.

Definition terminator : string := "};" ++ nl.

(** The samples 0, 1, 2 as hexadecimal and as decimal literals. *)
Definition header_hex : string :=
  declaration ++ "0x00, 0x01, 0x02," ++ nl ++ terminator.

Definition header_dec : string :=
  declaration ++ "0, 1, 2," ++ nl ++ terminator.

(** The samples 1, 2, 3 as decimal literals. *)
Definition header_dec_from_one : string :=
  declaration ++ "1, 2, 3," ++ nl ++ terminator.

(** An empty line right after the declaration. *)
Definition header_blank : string :=
  declaration ++ nl ++ "0x00, 0x01, 0x02," ++ nl ++ terminator.

(** No line starts with [static const]. *)
Definition header_no_marker : string :=
  "const unsigned char sample_data[] = {" ++ nl
  ++ "0x00, 0x01, 0x02," ++ nl ++ terminator.

(** A file system with one readable file. *)
Definition single_file (name text : string) : Filereader.filesystem :=
  fun file => if String.eqb file name then Some text else None.

(** [sample_handler sample.h -wb out.wav], without [-sr]. *)
Definition writeback_without_samplerate : Main.Namespace :=
  Main.mk_Namespace false false "sample.h" Filereader.default_startswith
                    None None false (Some "out.wav") None.

End Samples.

(* ------------------------------------------------------------------ *)
(** ** Array lines as the header converters write them *)
(* ------------------------------------------------------------------ *)

Module Literal.

Local Open Scope string_scope.

(** The decimal literal of a natural number. *)
Definition dec (n : N) : string :=
  DecimalString.NilZero.string_of_uint (N.to_uint n).

(** A hexadecimal literal of it: [0x], then the digits in lower case. *)
Definition hex (n : N) : string :=
  "0x" ++ HexadecimalString.NilZero.string_of_uint (N.to_hex_uint n).

(** A number whose decimal literal [int] accepts: no more digits than the
    limit. *)
Definition short (n : N) : Prop :=
  (Z.of_nat (String.length (dec n)) <= PyInt.int_max_str_digits)%Z.

(** The items of a line: the first literal as it is, each of the others
    after one blank. *)
Definition tokens (lits : list string) : list string :=
  match lits with
  | [] => []
  | x :: rest => x :: map (String " "%char) rest
  end.

(** Every item followed by a comma. *)
Fixpoint comma_join (items : list string) : string :=
  match items with
  | [] => ""
  | item :: items' => item ++ "," ++ comma_join items'
  end.

(** One line of the array: [v1, v2, ..., vn,] and the newline. *)
Definition data_line (lits : list string) : string :=
  comma_join (tokens lits) ++ Samples.nl.

(** Positional value of a numeral read from the left, from [acc] on. *)
Fixpoint dec_value (d : Decimal.uint) (acc : Z) : Z :=
  match d with
  | Decimal.Nil => acc
  | Decimal.D0 l => dec_value l (acc * 10 + 0)
  | Decimal.D1 l => dec_value l (acc * 10 + 1)
  | Decimal.D2 l => dec_value l (acc * 10 + 2)
  | Decimal.D3 l => dec_value l (acc * 10 + 3)
  | Decimal.D4 l => dec_value l (acc * 10 + 4)
  | Decimal.D5 l => dec_value l (acc * 10 + 5)
  | Decimal.D6 l => dec_value l (acc * 10 + 6)
  | Decimal.D7 l => dec_value l (acc * 10 + 7)
  | Decimal.D8 l => dec_value l (acc * 10 + 8)
  | Decimal.D9 l => dec_value l (acc * 10 + 9)
  end%Z.

Fixpoint hex_value (d : Hexadecimal.uint) (acc : Z) : Z :=
  match d with
  | Hexadecimal.Nil => acc
  | Hexadecimal.D0 l => hex_value l (acc * 16 + 0)
  | Hexadecimal.D1 l => hex_value l (acc * 16 + 1)
  | Hexadecimal.D2 l => hex_value l (acc * 16 + 2)
  | Hexadecimal.D3 l => hex_value l (acc * 16 + 3)
  | Hexadecimal.D4 l => hex_value l (acc * 16 + 4)
  | Hexadecimal.D5 l => hex_value l (acc * 16 + 5)
  | Hexadecimal.D6 l => hex_value l (acc * 16 + 6)
  | Hexadecimal.D7 l => hex_value l (acc * 16 + 7)
  | Hexadecimal.D8 l => hex_value l (acc * 16 + 8)
  | Hexadecimal.D9 l => hex_value l (acc * 16 + 9)
  | Hexadecimal.Da l => hex_value l (acc * 16 + 10)
  | Hexadecimal.Db l => hex_value l (acc * 16 + 11)
  | Hexadecimal.Dc l => hex_value l (acc * 16 + 12)
  | Hexadecimal.Dd l => hex_value l (acc * 16 + 13)
  | Hexadecimal.De l => hex_value l (acc * 16 + 14)
  | Hexadecimal.Df l => hex_value l (acc * 16 + 15)
  end%Z.

(** Every character of [s] satisfies [P]. *)
Fixpoint all_chars (P : ascii -> bool) (s : string) : bool :=
  match s with
  | "" => true
  | String c s' => P c && all_chars P s'
  end.

(** The characters of a literal: the digits and the [x] of the prefix. *)
Definition literal_char (c : ascii) : bool :=
  match PyInt.digit_value c with
  | Some d => (d <? 16)%Z
  | None => false
  end
  || Ascii.eqb c "x"%char.

Definition not_comma (c : ascii) : bool := negb (Ascii.eqb c ","%char).

Definition not_newline (c : ascii) : bool := negb (Ascii.eqb c "010"%char).

Definition not_return (c : ascii) : bool := negb (Ascii.eqb c "013"%char).

(** Neither a line feed nor a carriage return. *)
Definition inline_char (c : ascii) : bool := not_newline c && not_return c.

(** A text line: nothing that ends a line but the line feed at its end. *)
Definition one_line (l : string) : Prop :=
  exists body, l = body ++ Samples.nl /\ all_chars inline_char body = true.

(** The text made of the given lines. *)
Definition text_of (lines : list string) : string :=
  fold_right append "" lines.

(** A header: the declaration, one line per row of numbers written with
    [lit], and the closing line. *)
Definition header_of (lit : N -> string) (rows : list (list N)) : string :=
  text_of (Samples.declaration
             :: (map (fun row => data_line (map lit row)) rows
                 ++ [Samples.terminator])%list).

End Literal.

(* ------------------------------------------------------------------ *)
(** ** SAMPLE WRITEBACK MODULE: the header writer *)
(* ------------------------------------------------------------------ *)

Module Writeback.

Local Open Scope string_scope.









End Writeback.

(* ------------------------------------------------------------------ *)
(** ** The first steps of the driver, named *)
(* ------------------------------------------------------------------ *)

Module Pipeline.

Import Main.

(** The sample after the optional cut. *)
Definition cut_sample (args : Namespace) (sample : list Z) : list Z :=
  if truthy_int (cut args)
  then slice_to sample (- match cut args with Some c => c | None => 0%Z end)
  else sample.

(** The sample after the optional cut and the optional rate reduction. *)
Definition prepare (args : Namespace) (sample : list Z) : result (list Z) :=
  if truthy_int (ratio args)
  then Converter.reduce_samplerate (cut_sample args sample)
         (match ratio args with Some r => r | None => 0%Z end)
  else Ok (cut_sample args sample).

End Pipeline.

(* ------------------------------------------------------------------ *)
(** ** The amplitude re-encoder *)
(* ------------------------------------------------------------------ *)

Section Twos_complement.

Import Converter.
Local Open Scope Z_scope.

Lemma twos_complement_value_high max_value v :
  v > max_value -> twos_complement_value max_value v = v - max_value - 1.
Proof.
  intros H. unfold twos_complement_value.
  destruct (Z.gtb_spec v max_value); lia.
Qed.

Lemma twos_complement_value_low max_value v :
  v <= max_value ->
  twos_complement_value max_value v = Z.abs (v + 1) + max_value.
Proof.
  intros H. unfold twos_complement_value, Z.lnot.
  destruct (Z.gtb_spec v max_value); lia.
Qed.

Lemma twos_complement_loop_map max_value sample_data :
  forall out,
    twos_complement_loop max_value out sample_data
    = out ++ map (twos_complement_value max_value) sample_data.
Proof.
  induction sample_data as [|x rest IH]; intros out; simpl.
  - now rewrite app_nil_r.
  - rewrite IH, <- app_assoc. reflexivity.
Qed.

Lemma twos_complement_map sample_data max_value :
  twos_complement sample_data max_value
  = map (twos_complement_value max_value) sample_data.
Proof. unfold twos_complement. now rewrite twos_complement_loop_map. Qed.

(** C1. For [max_value >= 0] and [v] in [[0, 2*max_value+1]], the remap
    of one sample applied twice gives [v] back: on that range it is an
    involution, which is what the write back of the driver relies on. *)
Theorem twos_complement_value_involutive max_value v :
  0 <= max_value ->
  0 <= v <= 2 * max_value + 1 ->
  twos_complement_value max_value (twos_complement_value max_value v) = v.
Proof.
  intros Hm Hv.
  destruct (Z_gt_le_dec v max_value) as [Hhigh | Hlow].
  - rewrite (twos_complement_value_high _ _ Hhigh).
    rewrite twos_complement_value_low by lia. lia.
  - rewrite (twos_complement_value_low _ _ Hlow).
    rewrite twos_complement_value_high by lia. lia.
Qed.

Lemma twos_complement_value_involutive_witness :
  0 <= 127 /\ 0 <= 200 <= 2 * 127 + 1 /\
  twos_complement_value 127 (twos_complement_value 127 200) = 200.
Proof.
  split; [lia | split; [lia |]].
  apply (twos_complement_value_involutive 127 200); lia.
Defined.

(** The same on whole sequences, as the driver applies it. *)
Lemma twos_complement_involutive sample_data max_value :
  0 <= max_value ->
  Forall (fun v => 0 <= v <= 2 * max_value + 1) sample_data ->
  twos_complement (twos_complement sample_data max_value) max_value
  = sample_data.
Proof.
  intros Hm Hall. rewrite !twos_complement_map, map_map.
  induction Hall as [|v l Hv _ IH]; simpl.
  - reflexivity.
  - f_equal; [destruct (Z_gt_le_dec v max_value) as [Hh | Hl] | exact IH].
    + rewrite (twos_complement_value_high _ _ Hh).
      rewrite twos_complement_value_low by lia. lia.
    + rewrite (twos_complement_value_low _ _ Hl).
      rewrite twos_complement_value_high by lia. lia.
Qed.

(** C4, as the code has it.  The re-encoder is total.  It maps [v] to
    [v - max_value - 1] when [v > max_value]; when [v <= max_value] it
    maps [v] to [v + max_value + 1] provided [v >= -1], and to
    [max_value - v - 1] when [v < -1]. *)
Theorem twos_complement_value_cases max_value v :
  (v > max_value ->
   twos_complement_value max_value v = v - max_value - 1) /\
  (v <= max_value -> -1 <= v ->
   twos_complement_value max_value v = v + max_value + 1) /\
  (v <= max_value -> v < -1 ->
   twos_complement_value max_value v = max_value - v - 1).
Proof.
  split; [apply twos_complement_value_high |].
  split; intros Hle Hv; rewrite (twos_complement_value_low _ _ Hle); lia.
Qed.

Lemma twos_complement_value_cases_witness :
  (200 > 127 /\ twos_complement_value 127 200 = 200 - 127 - 1) /\
  (0 <= 127 /\ -1 <= 0 /\ twos_complement_value 127 0 = 0 + 127 + 1) /\
  (-5 <= 127 /\ -5 < -1 /\ twos_complement_value 127 (-5) = 127 - -5 - 1).
Proof.
  split; [| split].
  - split; [lia |].
    apply (proj1 (twos_complement_value_cases 127 200)). lia.
  - split; [lia | split; [lia |]].
    apply (proj1 (proj2 (twos_complement_value_cases 127 0))); lia.
  - split; [lia | split; [lia |]].
    apply (proj2 (proj2 (twos_complement_value_cases 127 (-5)))); lia.
Defined.

(** C4 as stated fails below [-1]: with [max_value = 127] the sample
    [-5] is mapped to [131], not to [-5 + 127 + 1 = 123]. *)
Lemma twos_complement_value_negative_counterexample :
  ~ (forall max_value v,
        (v > max_value ->
         twos_complement_value max_value v = v - max_value - 1) /\
        (v <= max_value ->
         twos_complement_value max_value v = v + max_value + 1)).
Proof.
  intros H. destruct (H 127 (-5)) as [_ Hlow].
  specialize (Hlow ltac:(lia)). vm_compute in Hlow. discriminate.
Qed.

End Twos_complement.

(* ------------------------------------------------------------------ *)
(** ** Floats: where the rounding is exact *)
(* ------------------------------------------------------------------ *)

Section Float_rounding.

Import PyFloat.
Local Open Scope Z_scope.

Lemma pow2_pos s : 0 < pow2 s.
Proof. unfold pow2. apply Z.pow_pos_nonneg; lia. Qed.

Lemma pow2_nonneg s : 0 <= s -> pow2 s = 2 ^ s.
Proof. intros H. unfold pow2. now rewrite Z.max_l. Qed.

Lemma pow2_nonpos s : s <= 0 -> pow2 s = 1.
Proof. intros H. unfold pow2. now rewrite Z.max_r. Qed.

Lemma round_half_even_cases n d :
  0 < d ->
  round_half_even n d = n / d
  \/ (round_half_even n d = n / d + 1 /\ d <= 2 * (n mod d)).
Proof.
  intros Hd. unfold round_half_even.
  destruct (Z.ltb_spec (2 * (n mod d)) d); [now left |].
  destruct (Z.ltb_spec d (2 * (n mod d))); [right; lia |].
  destruct (Z.even (n / d)); [now left | right; lia].
Qed.

(** The exponent found is a lower bound: [2^e <= n / d]. *)
Lemma exponent_lower n d :
  0 < n -> 0 < d ->
  d * pow2 (exponent n d) <= n * pow2 (- exponent n d).
Proof.
  intros Hn Hd. unfold exponent.
  set (e := Z.log2 n - Z.log2 d).
  destruct (Z.leb_spec (d * pow2 e) (n * pow2 (- e))) as [H | H];
    [exact H |].
  pose proof (Z.log2_spec n Hn) as [Hn1 Hn2].
  pose proof (Z.log2_spec d Hd) as [Hd1 Hd2].
  pose proof (Z.log2_nonneg n) as Hln.
  pose proof (Z.log2_nonneg d) as Hld.
  destruct (Z.le_gt_cases 1 e) as [He | He].
  - rewrite (pow2_nonneg (e - 1)) by lia.
    rewrite (pow2_nonpos (- (e - 1))) by lia.
    assert (E : 2 ^ Z.log2 n = 2 ^ (Z.log2 d + 1) * 2 ^ (e - 1)).
    { rewrite <- Z.pow_add_r by lia. f_equal. unfold e. lia. }
    rewrite Z.pow_succ_r in Hd2 by lia.
    replace (Z.log2 d + 1) with (Z.succ (Z.log2 d)) in E by lia.
    rewrite Z.pow_succ_r in E by lia.
    assert (0 < 2 ^ (e - 1)) by (apply Z.pow_pos_nonneg; lia).
    nia.
  - rewrite (pow2_nonpos (e - 1)) by lia.
    rewrite (pow2_nonneg (- (e - 1))) by lia.
    assert (E : 2 ^ (Z.log2 d + 1) = 2 ^ Z.log2 n * 2 ^ (- (e - 1))).
    { rewrite <- Z.pow_add_r by lia. f_equal. unfold e. lia. }
    replace (Z.log2 d + 1) with (Z.succ (Z.log2 d)) in E by lia.
    assert (0 < 2 ^ (- (e - 1))) by (apply Z.pow_pos_nonneg; lia).
    nia.
Qed.

Lemma exponent_upper n d :
  0 < n -> 0 < d -> exponent n d <= Z.log2 n.
Proof.
  intros Hn Hd. unfold exponent.
  pose proof (Z.log2_nonneg d).
  destruct (_ <=? _); lia.
Qed.

(** Below [2^53] the rounding never crosses an integer: the truncated
    float quotient is the integer quotient. *)
Lemma nearest_exact n d :
  0 < n < 2 ^ 53 -> 0 < d ->
  overflows (fst (nearest n d)) (snd (nearest n d)) = false
  /\ truncate (fst (nearest n d)) (snd (nearest n d)) = n / d.
Proof.
  intros [Hn Hlt] Hd. unfold nearest. cbn [fst snd].
  pose proof (exponent_lower n d Hn Hd) as Hlow.
  pose proof (exponent_upper n d Hn Hd) as Hup.
  assert (Hlog : Z.log2 n < 53) by (apply Z.log2_lt_pow2; assumption).
  set (e := exponent n d) in *.
  set (t := Z.max (e - 52) (-1074)).
  assert (Ht : t <= 0) by lia.
  assert (Hs : -1074 <= t) by lia.
  rewrite (pow2_nonpos t Ht), (pow2_nonneg (- t)) by lia.
  rewrite !Z.mul_1_r.
  set (P := 2 ^ (- t)).
  assert (HP : 0 < P) by (apply Z.pow_pos_nonneg; lia).
  assert (HF : n * P / d / P = n / d).
  { rewrite Z.div_div by lia.
    rewrite Z.div_mul_cancel_r by lia. reflexivity. }
  pose proof (Z.div_mod (n * P) d ltac:(lia)) as HN.
  pose proof (Z.mod_pos_bound (n * P) d Hd) as Hr.
  pose proof (Z.div_mod n d ltac:(lia)) as Hnd.
  pose proof (Z.mod_pos_bound n d Hd) as Hr0.
  pose proof (Z.div_mod (n * P / d) P ltac:(lia)) as HFP.
  pose proof (Z.mod_pos_bound (n * P / d) P HP) as HrF.
  rewrite HF in HFP.
  assert (HQ : 0 <= n / d) by (apply Z.div_pos; lia).
  assert (HF0 : 0 <= n * P / d) by (apply Z.div_pos; nia).
  set (k := round_half_even (n * P) d).
  assert (Hk : k = n * P / d
               \/ (k = n * P / d + 1 /\ n * P / d + 1 < (n / d + 1) * P)).
  { destruct (round_half_even_cases (n * P) d Hd) as [E | [E Hhalf]];
      [now left | right; split; [exact E |]].
    destruct (Z.lt_ge_cases (n * P / d + 1) ((n / d + 1) * P)) as [? | Hge];
      [assumption | exfalso].
    assert (EF : n * P / d + 1 = (n / d + 1) * P) by nia.
    assert (Hd2 : 2 * P <= d) by nia.
    assert (Hn2 : 2 * (n / d + 1) * P - 2 <= n) by nia.
    destruct (Z.le_gt_cases 53 (- t)) as [Hbig | Hsmall].
    - assert (2 ^ 53 <= P) by (apply Z.pow_le_mono_r; lia). nia.
    - assert (Et : t = e - 52) by lia.
      assert (He : 0 <= e) by lia.
      rewrite (pow2_nonneg e He), (pow2_nonpos (- e)) in Hlow by lia.
      assert (HQe : 2 ^ e <= n / d).
      { apply Z.div_le_lower_bound; lia. }
      assert (E52 : 2 ^ e * P = 2 ^ 52).
      { unfold P. rewrite <- Z.pow_add_r by lia. f_equal. lia. }
      assert (E53 : 2 ^ 53 = 2 * 2 ^ 52) by reflexivity.
      nia. }
  split.
  - unfold overflows. apply andb_false_iff.
    destruct (Z.ltb_spec 0 k) as [Hkpos | Hknon]; [right | now left].
    apply Z.leb_gt.
    assert (Hkle : k <= 2 ^ (53 + - t)).
    { rewrite Z.pow_add_r by lia. fold P. nia. }
    pose proof (Z.log2_le_mono _ _ Hkle) as Hl.
    rewrite Z.log2_pow2 in Hl by lia. lia.
  - unfold truncate. rewrite (pow2_nonpos t Ht), (pow2_nonneg (- t)) by lia.
    fold P. rewrite Z.mul_1_r.
    destruct Hk as [-> | [-> Hlt2]]; [exact HF |].
    symmetry. apply (Z.div_unique _ _ _ (n * P / d + 1 - n / d * P)); nia.
Qed.

Lemma int_of_quotient_exact a b :
  Z.abs a < 2 ^ 53 -> b <> 0 -> int_of_quotient a b = Ok (a ÷ b).
Proof.
  intros Ha Hb. unfold int_of_quotient.
  destruct (Z.eqb_spec a 0) as [-> | Hne]; [now rewrite Z.quot_0_l |].
  pose proof (nearest_exact (Z.abs a) (Z.abs b) ltac:(lia) ltac:(lia))
    as [Hov Htr].
  destruct (nearest (Z.abs a) (Z.abs b)) as [k t]. cbn [fst snd] in *.
  rewrite Hov, Htr. f_equal. symmetry. now apply Z.quot_div.
Qed.

Lemma of_int_exact x : Z.abs x < 2 ^ 53 -> of_int x = Ok x.
Proof.
  intros Hx. unfold of_int. rewrite int_of_quotient_exact by lia.
  now rewrite Z.quot_1_r.
Qed.

Lemma round_exact x : Z.abs x < 2 ^ 53 -> round x = Finite x.
Proof. intros Hx. unfold round. now rewrite of_int_exact. Qed.

Lemma int_of_float_quotient_exact a ratio :
  Z.abs a < 2 ^ 53 -> Z.abs ratio < 2 ^ 53 -> ratio <> 0 ->
  int_of_float_quotient (Finite a) ratio = Ok (a ÷ ratio).
Proof.
  intros Ha Hr Hne. unfold int_of_float_quotient.
  rewrite of_int_exact by assumption. cbn [bind].
  destruct (Z.eqb_spec ratio 0); [contradiction |].
  now apply int_of_quotient_exact.
Qed.


End Float_rounding.

(* ------------------------------------------------------------------ *)
(** ** The rate reducer *)
(* ------------------------------------------------------------------ *)

Section Reduce_samplerate.

Import Converter Window.
Local Open Scope Z_scope.

Lemma mapM_app {A B : Type} (f : A -> result B) l1 l2 :
  mapM f (l1 ++ l2)
  = (a <- mapM f l1 ;; b <- mapM f l2 ;; Ok (a ++ b))%py.
Proof.
  induction l1 as [|x l1 IH]; cbn [app mapM bind].
  - now destruct (mapM f l2).
  - destruct (f x) as [y | e]; cbn [bind]; [| reflexivity].
    rewrite IH. destruct (mapM f l1) as [ys | e]; cbn [bind]; [| reflexivity].
    now destruct (mapM f l2).
Qed.

Lemma mapM_ext_in {A B : Type} (f g : A -> result B) l :
  (forall a, In a l -> f a = g a) -> mapM f l = mapM g l.
Proof.
  induction l as [|x l IH]; intros H; cbn [mapM]; [reflexivity |].
  rewrite (H x) by now left. rewrite IH; [reflexivity |].
  intros a Ha. apply H. now right.
Qed.

Lemma mapM_ok_map {A B : Type} (f : A -> result B) (g : A -> B) l :
  (forall a, In a l -> f a = Ok (g a)) -> mapM f l = Ok (map g l).
Proof.
  induction l as [|x l IH]; intros H; cbn [mapM map]; [reflexivity |].
  rewrite (H x) by now left. cbn [bind]. rewrite IH; [reflexivity |].
  intros a Ha. apply H. now right.
Qed.

Lemma mapM_length {A B : Type} (f : A -> result B) l :
  forall o, mapM f l = Ok o -> length o = length l.
Proof.
  induction l as [|x l IH]; intros o; cbn [mapM].
  - now intros [= <-].
  - destruct (f x) as [y | e]; cbn [bind]; [| discriminate].
    destruct (mapM f l) as [ys | e]; cbn [bind]; [| discriminate].
    intros [= <-]. cbn [length]. now rewrite (IH ys).
Qed.

(** One iteration once the accumulator is an integer. *)
Lemma reduce_step_int ratio o s i x :
  ratio <> 0 ->
  reduce_step ratio (mk_reduce_state o (Int s)) i x
  = if i mod ratio =? 0
    then (q <- PyFloat.int_of_quotient (s + x) ratio ;;
          Ok (mk_reduce_state (o ++ [q]) (Int 0)))%py
    else Ok (mk_reduce_state o (Int (s + x))).
Proof.
  intros Hr. unfold reduce_step. cbn [sample_sum out add_sample bind].
  destruct (Z.eqb_spec ratio 0) as [E | _]; [contradiction |].
  destruct (i mod ratio =? 0); [| reflexivity].
  cbn [int_truediv]. now destruct (Z.eqb_spec ratio 0) as [E | _].
Qed.

Lemma reduce_loop_app ratio d1 :
  forall i st d2,
    reduce_loop ratio i st (d1 ++ d2)
    = (st' <- reduce_loop ratio i st d1 ;;
       reduce_loop ratio (i + Z.of_nat (length d1)) st' d2)%py.
Proof.
  induction d1 as [|x d1 IH]; intros i st d2.
  - simpl. now rewrite Z.add_0_r.
  - change ((x :: d1) ++ d2) with (x :: (d1 ++ d2)).
    cbn [reduce_loop length]. rewrite Nat2Z.inj_succ.
    destruct (reduce_step ratio st i x) as [st' | e]; cbn [bind];
      [| reflexivity].
    rewrite IH.
    replace (i + Z.succ (Z.of_nat (length d1)))
      with (i + 1 + Z.of_nat (length d1)) by lia.
    reflexivity.
Qed.

Lemma acc_before_snoc data x ratio i :
  (i <= length data)%nat ->
  acc_before (data ++ [x]) ratio i = acc_before data ratio i.
Proof.
  induction i as [|i IH]; intros Hi; simpl; [reflexivity |].
  destruct (is_boundary ratio i); [reflexivity |].
  rewrite IH, app_nth1 by lia. reflexivity.
Qed.

Lemma emission_snoc data x ratio i :
  (i < length data)%nat ->
  emission (data ++ [x]) ratio i = emission data ratio i.
Proof.
  intros Hi. unfold emission, accumulator, acc_at.
  destruct i as [|i].
  - now rewrite app_nth1 by lia.
  - now rewrite acc_before_snoc, app_nth1 by lia.
Qed.

Lemma emission_last data x ratio :
  data <> [] ->
  emission (data ++ [x]) ratio (length data)
  = int_truediv (Int (acc_before data ratio (length data) + x)) ratio.
Proof.
  intros Hd. unfold emission, accumulator.
  destruct (length data) as [|n] eqn:E.
  - destruct data; [contradiction | discriminate].
  - cbn [bind]. unfold acc_at. rewrite <- E.
    now rewrite acc_before_snoc, nth_middle by lia.
Qed.

(** The loop invariant: after a prefix, [out] holds the emissions of that
    prefix and [sample_sum] the accumulator since the last emission. *)
Lemma reduce_loop_emissions ratio data :
  ratio <> 0 ->
  reduce_loop ratio 0 initial_state data
  = (o <- mapM (emission data ratio)
               (filter (is_boundary ratio) (seq 0 (length data))) ;;
     Ok (mk_reduce_state o (accumulator_after data ratio)))%py.
Proof.
  intros Hr. induction data as [|x data IH] using rev_ind.
  - reflexivity.
  - rewrite reduce_loop_app, IH.
    rewrite length_app, Nat.add_1_r, seq_S, filter_app, mapM_app.
    rewrite (mapM_ext_in (emission (data ++ [x]) ratio) (emission data ratio)).
    2:{ intros i Hi. apply filter_In in Hi. destruct Hi as [Hi _].
        apply in_seq in Hi. apply emission_snoc. lia. }
    destruct (mapM (emission data ratio)
                   (filter (is_boundary ratio) (seq 0 (length data))))
      as [o | e]; cbn [bind]; [| reflexivity].
    cbn [reduce_loop filter Nat.add].
    assert (Hafter : accumulator_after (data ++ [x]) ratio
                     = Int (acc_before (data ++ [x]) ratio (S (length data)))).
    { unfold accumulator_after. destruct data; [reflexivity |].
      cbn [app length]. rewrite length_app. cbn [length].
      now rewrite Nat.add_1_r. }
    rewrite Hafter. cbn [acc_before].
    rewrite acc_before_snoc, nth_middle by lia.
    unfold is_boundary. rewrite Z.add_0_l.
    destruct data as [|y data].
    + (* the first element: the accumulator is still the float *)
      cbn [length Z.of_nat app]. rewrite Z.mod_0_l by assumption.
      cbn [Z.eqb mapM]. unfold reduce_step, emission, accumulator.
      cbn [accumulator_after sample_sum out nth].
      destruct (add_sample (Float (PyFloat.Finite 0)) x) as [s | e];
        cbn [bind]; [| reflexivity].
      destruct (Z.eqb_spec ratio 0) as [E | _]; [contradiction |].
      rewrite Z.mod_0_l by assumption. cbn [Z.eqb].
      destruct (int_truediv s ratio) as [q | e]; cbn [bind app];
        reflexivity.
    + (* later elements: the accumulator is an integer *)
      change (accumulator_after (y :: data) ratio)
        with (Int (acc_before (y :: data) ratio (length (y :: data)))).
      rewrite reduce_step_int by assumption.
      destruct (Z.of_nat (length (y :: data)) mod ratio =? 0) eqn:Hb.
      * cbn [mapM]. rewrite emission_last by discriminate.
        cbn [bind int_truediv].
        destruct (Z.eqb_spec ratio 0) as [E | _]; [contradiction |].
        destruct (PyFloat.int_of_quotient _ ratio) as [q | e];
          cbn [bind]; reflexivity.
      * cbn [mapM bind]. now rewrite app_nil_r.
Qed.

Lemma reduce_samplerate_emissions ratio data :
  ratio <> 0 ->
  reduce_samplerate data ratio
  = mapM (emission data ratio)
         (filter (is_boundary ratio) (seq 0 (length data))).
Proof.
  intros Hr. unfold reduce_samplerate.
  rewrite reduce_loop_emissions by assumption.
  destruct (mapM _ _); reflexivity.
Qed.

(** Where nothing is rounded: accumulator and ratio below [2^53]. *)
Lemma emission_exact data ratio i :
  ratio <> 0 -> Z.abs ratio < 2 ^ 53 ->
  Z.abs (acc_at data ratio i) < 2 ^ 53 ->
  emission data ratio i = Ok (acc_at data ratio i ÷ ratio).
Proof.
  intros Hr Hrb Hacc. unfold emission, accumulator. destruct i as [|i].
  - unfold acc_at in *. cbn [acc_before] in *. rewrite Z.add_0_l in *.
    cbn [add_sample]. rewrite of_int_exact by assumption.
    cbn [bind PyFloat.add]. rewrite Z.add_0_l.
    rewrite round_exact by assumption. cbn [int_truediv].
    now apply int_of_float_quotient_exact.
  - cbn [bind int_truediv].
    destruct (Z.eqb_spec ratio 0) as [E | _]; [contradiction |].
    now apply int_of_quotient_exact.
Qed.

Lemma reduce_samplerate_exact data ratio :
  ratio <> 0 -> Z.abs ratio < 2 ^ 53 ->
  (forall i, (i < length data)%nat -> Z.abs (acc_at data ratio i) < 2 ^ 53) ->
  reduce_samplerate data ratio = Ok (emissions data ratio).
Proof.
  intros Hr Hrb Hacc. rewrite reduce_samplerate_emissions by assumption.
  unfold emissions. apply mapM_ok_map. intros i Hi.
  apply filter_In in Hi. destruct Hi as [Hi _]. apply in_seq in Hi.
  apply emission_exact; [assumption | assumption |]. apply Hacc. lia.
Qed.

(** *** The blocks between two emissions *)

Lemma sum_app l1 l2 : sum (l1 ++ l2) = sum l1 + sum l2.
Proof.
  unfold sum. induction l1 as [|a l1 IH]; simpl; [reflexivity |].
  rewrite IH. lia.
Qed.

(** Right after an emission at a multiple of the ratio, the indices that
    follow are no boundary until a whole ratio has gone by. *)
Lemma offset_not_boundary ratio i j :
  ratio <> 0 -> (i - 1) mod ratio = 0 ->
  0 <= j -> j + 1 < Z.abs ratio ->
  (i + j) mod ratio <> 0.
Proof.
  intros Hr Hi Hj Hlt Hij.
  apply Z.mod_divide in Hi; [| assumption].
  apply Z.mod_divide in Hij; [| assumption].
  destruct Hi as [a Ha]. destruct Hij as [b Hb].
  assert (Hd : j + 1 = (b - a) * ratio) by lia.
  clear Ha Hb. revert Hd. generalize (b - a). intros k Hd.
  destruct (Z.abs_spec ratio) as [[? E] | [? E]]; rewrite E in Hlt;
    destruct (Z.lt_trichotomy k 0) as [Hk | [Hk | Hk]]; nia.
Qed.

Lemma offset_boundary ratio i :
  ratio <> 0 -> (i - 1) mod ratio = 0 ->
  (i + Z.abs ratio - 1) mod ratio = 0.
Proof.
  intros Hr Hi.
  apply Z.mod_divide in Hi; [| assumption].
  apply Z.mod_divide; [assumption |].
  destruct Hi as [a Ha].
  destruct (Z.abs_spec ratio) as [[? E] | [? E]]; rewrite E.
  - exists (a + 1). lia.
  - exists (a - 1). lia.
Qed.

Lemma reduce_loop_no_emission ratio blk :
  forall i o s rest,
    ratio <> 0 ->
    (forall j, 0 <= j < Z.of_nat (length blk) -> (i + j) mod ratio <> 0) ->
    reduce_loop ratio i (mk_reduce_state o (Int s)) (blk ++ rest)
    = reduce_loop ratio (i + Z.of_nat (length blk))
        (mk_reduce_state o (Int (s + sum blk))) rest.
Proof.
  induction blk as [|x blk IH]; intros i o s rest Hr Hno.
  - simpl. now rewrite !Z.add_0_r.
  - change ((x :: blk) ++ rest) with (x :: (blk ++ rest)).
    cbn [reduce_loop length]. rewrite Nat2Z.inj_succ.
    rewrite reduce_step_int by assumption.
    assert (H0 : i mod ratio <> 0).
    { specialize (Hno 0). rewrite Z.add_0_r in Hno. apply Hno.
      cbn [length]. lia. }
    apply Z.eqb_neq in H0. rewrite H0. cbn [bind].
    rewrite IH; [| assumption |].
    + f_equal; [lia |]. do 2 f_equal.
      change (sum (x :: blk)) with (x + sum blk). lia.
    + intros j Hj. replace (i + 1 + j) with (i + (j + 1)) by lia.
      apply Hno. cbn [length]. lia.
Qed.

(** A whole block after an emission: silent up to its last element, which
    emits [int] of the block sum divided by the ratio. *)
Lemma reduce_loop_block ratio blk :
  forall i o rest,
    ratio <> 0 -> (i - 1) mod ratio = 0 ->
    length blk = Z.abs_nat ratio ->
    reduce_loop ratio i (mk_reduce_state o (Int 0)) (blk ++ rest)
    = (q <- block_emission ratio blk ;;
       reduce_loop ratio (i + Z.abs ratio)
         (mk_reduce_state (o ++ [q]) (Int 0)) rest)%py.
Proof.
  intros i o rest Hr Hi Hlen.
  assert (Hne : blk <> []).
  { intros ->. simpl in Hlen. lia. }
  destruct (exists_last Hne) as [init [x ->]].
  rewrite length_app in Hlen. simpl in Hlen.
  rewrite <- app_assoc.
  rewrite reduce_loop_no_emission; [| assumption |].
  - cbn [app reduce_loop].
    rewrite reduce_step_int by assumption.
    replace (i + Z.of_nat (length init)) with (i + Z.abs ratio - 1) by lia.
    rewrite (offset_boundary _ _ Hr Hi). rewrite Z.eqb_refl.
    unfold block_emission. fold (sum (init ++ [x])).
    rewrite sum_app. cbn [sum fold_right].
    replace (0 + sum init + x) with (sum init + (x + 0)) by lia.
    destruct (PyFloat.int_of_quotient _ ratio) as [q | e]; cbn [bind];
      [| reflexivity].
    f_equal. lia.
  - intros j Hj. apply offset_not_boundary; lia.
Qed.

Lemma blocks_step n l :
  (0 < n <= length l)%nat ->
  blocks n l = firstn n l :: blocks n (skipn n l).
Proof.
  intros Hn. unfold blocks. rewrite length_skipn.
  replace (length l / n)%nat with (S ((length l - n) / n)).
  - cbn [seq map]. f_equal.
    rewrite <- seq_shift, map_map. apply map_ext. intros k.
    rewrite skipn_skipn. do 2 f_equal. lia.
  - replace (length l) with (1 * n + (length l - n))%nat at 2 by lia.
    rewrite Nat.div_add_l by lia. reflexivity.
Qed.

Lemma blocks_short n l : (length l < n)%nat -> blocks n l = [].
Proof.
  intros Hn. unfold blocks. rewrite Nat.div_small by assumption.
  reflexivity.
Qed.

(** From the element after an emission on: one emission per complete
    block of [|ratio|] elements, the rest is left in the accumulator. *)
Lemma reduce_loop_blocks ratio :
  ratio <> 0 ->
  forall c rest i o,
    (length rest / Z.abs_nat ratio = c)%nat ->
    (i - 1) mod ratio = 0 ->
    exists s,
      reduce_loop ratio i (mk_reduce_state o (Int 0)) rest
      = (qs <- mapM (block_emission ratio) (blocks (Z.abs_nat ratio) rest) ;;
         Ok (mk_reduce_state (o ++ qs) (Int s)))%py.
Proof.
  intros Hr. set (n := Z.abs_nat ratio).
  assert (Hn : (0 < n)%nat) by (unfold n; lia).
  induction c as [|c IH]; intros rest i o Hc Hi.
  - apply Nat.div_small_iff in Hc; [| lia].
    rewrite blocks_short by assumption.
    pose proof (reduce_loop_no_emission ratio rest i o 0 [] Hr) as Hrun.
    rewrite app_nil_r in Hrun. rewrite Hrun.
    + cbn [reduce_loop mapM bind]. rewrite app_nil_r. eauto.
    + intros j Hj. apply offset_not_boundary; try assumption; lia.
  - assert (Hlen : (n <= length rest)%nat).
    { destruct (Nat.lt_ge_cases (length rest) n) as [Hlt | Hge];
        [| assumption].
      apply Nat.div_small in Hlt. lia. }
    rewrite blocks_step by lia.
    pose proof (reduce_loop_block ratio (firstn n rest) i o (skipn n rest)
                  Hr Hi (firstn_length_le rest Hlen)) as Hrun.
    rewrite firstn_skipn in Hrun. rewrite Hrun. cbn [mapM].
    destruct (block_emission ratio (firstn n rest)) as [q | e];
      cbn [bind]; [| now exists 0].
    destruct (IH (skipn n rest) (i + Z.abs ratio) (o ++ [q])) as [s Hs].
    + rewrite length_skipn.
      replace (length rest) with (1 * n + (length rest - n))%nat in Hc
        by lia.
      rewrite Nat.div_add_l in Hc by lia. lia.
    + now apply offset_boundary.
    + exists s. rewrite Hs.
      destruct (mapM (block_emission ratio) (blocks n (skipn n rest)))
        as [qs | e]; cbn [bind]; [| reflexivity].
      now rewrite <- app_assoc.
Qed.

(** The reducer on a non-empty input: the emission of the first element
    alone, then one emission per complete block of the remaining
    elements. *)
Lemma reduce_samplerate_blocks x rest ratio :
  ratio <> 0 ->
  reduce_samplerate (x :: rest) ratio
  = (first <- emission [x] ratio 0 ;;
     others <- mapM (block_emission ratio) (blocks (Z.abs_nat ratio) rest) ;;
     Ok (first :: others))%py.
Proof.
  intros Hr. unfold reduce_samplerate. cbn [reduce_loop].
  unfold reduce_step, emission, accumulator.
  cbn [initial_state sample_sum out nth].
  destruct (add_sample (Float (PyFloat.Finite 0)) x) as [s0 | e];
    cbn [bind]; [| reflexivity].
  destruct (Z.eqb_spec ratio 0) as [E | _]; [contradiction |].
  rewrite Z.mod_0_l by assumption. cbn [Z.eqb].
  destruct (int_truediv s0 ratio) as [q | e]; cbn [bind]; [| reflexivity].
  destruct (reduce_loop_blocks ratio Hr (length rest / Z.abs_nat ratio)%nat
              rest (0 + 1) ([] ++ [q]) eq_refl) as [s Hs].
  - simpl. now apply Z.mod_0_l.
  - rewrite Hs.
    destruct (mapM (block_emission ratio) (blocks (Z.abs_nat ratio) rest));
      reflexivity.
Qed.

(** The blocks are consecutive pieces of the input, in input order. *)
Lemma concat_blocks n :
  (0 < n)%nat ->
  forall c l,
    (length l / n = c)%nat ->
    concat (blocks n l) = firstn (c * n) l.
Proof.
  intros Hn. induction c as [|c IH]; intros l Hc.
  - apply Nat.div_small_iff in Hc; [| lia].
    now rewrite blocks_short.
  - assert (Hlen : (n <= length l)%nat).
    { destruct (Nat.lt_ge_cases (length l) n) as [Hlt | Hge];
        [| assumption].
      apply Nat.div_small in Hlt. lia. }
    rewrite blocks_step by lia. rewrite concat_cons.
    rewrite (IH (skipn n l)).
    + rewrite <- (firstn_skipn n l) at 3.
      replace (S c * n)%nat with (length (firstn n l) + c * n)%nat.
      * now rewrite firstn_app_2.
      * rewrite firstn_length_le by assumption. lia.
    + rewrite length_skipn.
      replace (length l) with (1 * n + (length l - n))%nat in Hc by lia.
      rewrite Nat.div_add_l in Hc by lia. lia.
Qed.

Lemma length_blocks n l : length (blocks n l) = (length l / n)%nat.
Proof. unfold blocks. now rewrite length_map, length_seq. Qed.

(** How many elements come out when the reducer returns: one for the
    first element and one per complete block after it, that is
    [ceil (n / |ratio|)]. *)
Lemma reduce_samplerate_length data ratio o :
  ratio <> 0 ->
  reduce_samplerate data ratio = Ok o ->
  length o = emission_count (length data) ratio.
Proof.
  intros Hr. destruct data as [|x rest].
  - now intros [= <-].
  - rewrite reduce_samplerate_blocks by assumption.
    destruct (emission [x] ratio 0) as [first | e]; cbn [bind];
      [| discriminate].
    destruct (mapM (block_emission ratio) (blocks (Z.abs_nat ratio) rest))
      as [others | e] eqn:Hm; cbn [bind]; [| discriminate].
    intros [= <-]. cbn [length emission_count].
    now rewrite (mapM_length _ _ _ Hm), length_blocks.
Qed.

(** Where nothing is rounded, in blocks: first element, ratio and block
    sums below [2^53]. *)
Lemma reduce_samplerate_blocks_exact x rest ratio :
  ratio <> 0 -> Z.abs ratio < 2 ^ 53 -> Z.abs x < 2 ^ 53 ->
  Forall (fun blk => Z.abs (sum blk) < 2 ^ 53)
         (blocks (Z.abs_nat ratio) rest) ->
  reduce_samplerate (x :: rest) ratio
  = Ok (x ÷ ratio
        :: map (fun blk => sum blk ÷ ratio) (blocks (Z.abs_nat ratio) rest)).
Proof.
  intros Hr Hrb Hx Hblocks.
  rewrite reduce_samplerate_blocks by assumption.
  rewrite (emission_exact [x] ratio 0 Hr Hrb)
    by (unfold acc_at; cbn [acc_before nth]; now rewrite Z.add_0_l).
  unfold acc_at. cbn [acc_before nth bind]. rewrite Z.add_0_l.
  rewrite (mapM_ok_map (block_emission ratio) (fun blk => sum blk ÷ ratio)).
  - reflexivity.
  - intros blk Hin. unfold block_emission. fold (sum blk).
    apply int_of_quotient_exact; [| assumption].
    rewrite Forall_forall in Hblocks. now apply Hblocks.
Qed.

Lemma sum_abs_bound bound l :
  Forall (fun v => Z.abs v <= bound) l ->
  Z.abs (sum l) <= Z.of_nat (length l) * bound.
Proof.
  unfold sum. induction 1 as [|a l Ha _ IH]; cbn [fold_right length].
  - lia.
  - rewrite Nat2Z.inj_succ. lia.
Qed.

Lemma Forall_firstn_range {A : Type} (P : A -> Prop) n (l : list A) :
  Forall P l -> Forall P (firstn n l).
Proof.
  intros H. revert n. induction H as [|a l Ha _ IH]; intros [|n]; simpl;
    constructor; auto.
Qed.

Lemma Forall_skipn_range {A : Type} (P : A -> Prop) n (l : list A) :
  Forall P l -> Forall P (skipn n l).
Proof.
  intros H. revert n. induction H as [|a l Ha Hl IH]; intros [|n]; simpl;
    auto.
Qed.

(** Each block holds [n] elements of the list. *)
Lemma blocks_elements (P : Z -> Prop) n l :
  (0 < n)%nat -> Forall P l ->
  Forall (fun blk => length blk = n /\ Forall P blk) (blocks n l).
Proof.
  intros Hn Hl. unfold blocks. apply Forall_forall. intros blk Hin.
  apply in_map_iff in Hin. destruct Hin as [k [<- Hk]].
  apply in_seq in Hk. split.
  - apply firstn_length_le. rewrite length_skipn.
    assert (S k * n <= length l)%nat.
    { transitivity (length l / n * n)%nat.
      - apply Nat.mul_le_mono_r. lia.
      - rewrite Nat.mul_comm. apply Nat.Div0.mul_div_le. }
    simpl in *. lia.
  - now apply Forall_firstn_range, Forall_skipn_range.
Qed.

(** Samples bounded by [bound], with [|ratio| * bound] below [2^53]:
    nothing is rounded and nothing overflows. *)
Lemma reduce_samplerate_small data ratio bound :
  ratio <> 0 -> Z.abs ratio < 2 ^ 53 ->
  Forall (fun v => Z.abs v <= bound) data ->
  Z.abs ratio * bound < 2 ^ 53 ->
  reduce_samplerate data ratio
  = Ok (match data with
        | [] => []
        | x :: rest =>
            x ÷ ratio
              :: map (fun blk => sum blk ÷ ratio)
                     (blocks (Z.abs_nat ratio) rest)
        end).
Proof.
  intros Hr Hrb Hdata Hbound. destruct data as [|x rest]; [reflexivity |].
  inversion Hdata as [|? ? Hx Hrest]; subst.
  apply reduce_samplerate_blocks_exact; [assumption | assumption | nia |].
  eapply Forall_impl;
    [| apply (blocks_elements (fun v => Z.abs v <= bound));
       [lia | exact Hrest]].
  intros blk [Hlen Hblk]. cbn beta.
  pose proof (sum_abs_bound bound blk Hblk) as Hs.
  rewrite Hlen in Hs. lia.
Qed.

End Reduce_samplerate.

Section Reduce_samplerate_claims.

Import Converter Window.
Local Open Scope Z_scope.

(** C2. For a non-zero ratio the reducer emits exactly one element at
    each 0-based index that is 0 modulo the ratio, in index order; the
    element is [int] of the accumulator since the previous emission
    divided by the ratio, the division being the float one of the code;
    the accumulator then restarts from zero: after any input the loop
    holds these emissions and the sum of the elements since the last
    one.  While the ratio and the accumulator stay below [2^53] in
    magnitude, the element is the quotient truncated toward zero.  On
    [[1,2,3,4,5]] with ratio 2 the result is [[0, 2, 4]]. *)
Theorem reduce_samplerate_emits_at_boundaries :
  (forall data ratio,
      ratio <> 0 ->
      reduce_samplerate data ratio
      = mapM (emission data ratio)
             (filter (fun i => Z.of_nat i mod ratio =? 0)
                     (seq 0 (length data))))
  /\ (forall data ratio,
         ratio <> 0 ->
         reduce_loop ratio 0 initial_state data
         = (o <- mapM (emission data ratio)
                      (filter (fun i => Z.of_nat i mod ratio =? 0)
                              (seq 0 (length data))) ;;
            Ok (mk_reduce_state o (accumulator_after data ratio)))%py)
  /\ (forall data ratio i,
         acc_before data ratio (S i)
         = if Z.of_nat i mod ratio =? 0 then 0 else acc_at data ratio i)
  /\ (forall data ratio,
         ratio <> 0 -> Z.abs ratio < 2 ^ 53 ->
         (forall i, (i < length data)%nat ->
                    Z.abs (acc_at data ratio i) < 2 ^ 53) ->
         reduce_samplerate data ratio
         = Ok (map (fun i => acc_at data ratio i ÷ ratio)
                   (filter (fun i => Z.of_nat i mod ratio =? 0)
                           (seq 0 (length data)))))
  /\ reduce_samplerate [1; 2; 3; 4; 5] 2 = Ok [0; 2; 4].
Proof.
  split; [| split; [| split; [| split]]].
  - intros data ratio Hr. now apply reduce_samplerate_emissions.
  - intros data ratio Hr. now apply reduce_loop_emissions.
  - reflexivity.
  - intros data ratio Hr Hrb Hacc. now apply reduce_samplerate_exact.
  - vm_compute. reflexivity.
Qed.

Lemma reduce_samplerate_emits_at_boundaries_witness :
  3 <> 0 /\ Z.abs 3 < 2 ^ 53 /\
  reduce_samplerate [10; 20; 30; 40; 50; 60; 70] 3
  = Ok (map (fun i => acc_at [10; 20; 30; 40; 50; 60; 70] 3 i ÷ 3)
            (filter (fun i => Z.of_nat i mod 3 =? 0) (seq 0 7))).
Proof.
  split; [lia | split; [reflexivity |]].
  apply (proj1 (proj2 (proj2 (proj2 reduce_samplerate_emits_at_boundaries)))
               [10; 20; 30; 40; 50; 60; 70] 3).
  - lia.
  - reflexivity.
  - intros i Hi.
    do 7 (destruct i as [|i]; [vm_compute; reflexivity |]).
    cbn [length] in Hi. lia.
Defined.

(** C3, at the input [[1,2,3,4,5]] with ratio 2: the reducer returns
    three elements, one more than [floor (5 / 2) = 2], because index 0
    already emits. *)
Theorem reduce_samplerate_length_five_by_two :
  exists o,
    reduce_samplerate [1; 2; 3; 4; 5] 2 = Ok o
    /\ length o = 3%nat
    /\ (length [1; 2; 3; 4; 5] / 2 = 2)%nat.
Proof.
  exists [0; 2; 4].
  split; [vm_compute; reflexivity | split; reflexivity].
Qed.




(** C9. No stage reorders.  The re-encoder is the elementwise map of the
    remap of one sample: same length, and element [i] of the result is
    the remap of element [i] of the input.  The reducer, for a non-zero
    ratio, returns the emission of the first element followed by the
    emissions of the complete blocks of the remaining input, and these
    blocks are the consecutive pieces of that input in their order.  For
    samples bounded by [bound] with [|ratio| * bound] below [2^53] each
    emission is the truncated quotient of the block sum by the ratio. *)
Theorem stages_keep_order :
  (forall sample_data max_value,
      twos_complement sample_data max_value
      = map (twos_complement_value max_value) sample_data
      /\ length (twos_complement sample_data max_value) = length sample_data
      /\ forall i,
          nth_error (twos_complement sample_data max_value) i
          = option_map (twos_complement_value max_value)
                       (nth_error sample_data i))
  /\ (forall x rest ratio,
         ratio <> 0 ->
         reduce_samplerate (x :: rest) ratio
         = (first <- emission [x] ratio 0 ;;
            others <- mapM (block_emission ratio)
                           (blocks (Z.abs_nat ratio) rest) ;;
            Ok (first :: others))%py
         /\ concat (blocks (Z.abs_nat ratio) rest)
            = firstn (length rest / Z.abs_nat ratio * Z.abs_nat ratio) rest)
  /\ (forall x rest ratio bound,
         ratio <> 0 -> Z.abs ratio < 2 ^ 53 ->
         Forall (fun v => Z.abs v <= bound) (x :: rest) ->
         Z.abs ratio * bound < 2 ^ 53 ->
         reduce_samplerate (x :: rest) ratio
         = Ok (x ÷ ratio
               :: map (fun blk => sum blk ÷ ratio)
                      (blocks (Z.abs_nat ratio) rest))).
Proof.
  split; [| split].
  - intros sample_data max_value.
    rewrite twos_complement_map. split; [reflexivity |].
    split; [apply length_map | intros i; apply nth_error_map].
  - intros x rest ratio Hr. split.
    + now apply reduce_samplerate_blocks.
    + apply concat_blocks; [lia | reflexivity].
  - intros x rest ratio bound Hr Hrb Hdata Hbound.
    now apply (reduce_samplerate_small (x :: rest) ratio bound).
Qed.

Lemma stages_keep_order_witness :
  3 <> 0 /\ Z.abs 3 < 2 ^ 53 /\
  Forall (fun v => Z.abs v <= 9) (9 :: [1; 2; 3; 4; 5; 6; 7]) /\
  Z.abs 3 * 9 < 2 ^ 53 /\
  reduce_samplerate (9 :: [1; 2; 3; 4; 5; 6; 7]) 3
  = Ok (9 ÷ 3 :: map (fun blk => sum blk ÷ 3)
                     (blocks (Z.abs_nat 3) [1; 2; 3; 4; 5; 6; 7])).
Proof.
  assert (H : Forall (fun v => Z.abs v <= 9) (9 :: [1; 2; 3; 4; 5; 6; 7])).
  { repeat constructor; cbn; lia. }
  split; [lia | split; [reflexivity | split; [exact H | split]]].
  - reflexivity.
  - apply (proj2 (proj2 stages_keep_order) 9 [1; 2; 3; 4; 5; 6; 7] 3 9);
      [lia | reflexivity | exact H | reflexivity].
Defined.

End Reduce_samplerate_claims.

(* ------------------------------------------------------------------ *)
(** ** The array extractor *)
(* ------------------------------------------------------------------ *)

Section Read_file.

Import Filereader.
Local Open Scope string_scope.

Lemma read_lines_no_marker startswith lines :
  forall out,
    (forall line, In line lines -> PyStr.startswith line startswith = false) ->
    read_lines startswith false out lines = Ok out.
Proof.
  induction lines as [|line rest IH]; intros out Hno; simpl.
  - reflexivity.
  - rewrite (Hno line) by now left.
    destruct (PyStr.startswith line "};"); [reflexivity |].
    apply IH. intros l Hl. apply Hno. now right.
Qed.

(** C7. When the file exists and none of its lines starts with the
    marker, [read_file] returns the empty sequence and raises nothing. *)
Theorem read_file_no_marker fs file startswith text :
  fs file = Some text ->
  (forall line,
      In line (PyStr.lines text) ->
      PyStr.startswith line startswith = false) ->
  read_file fs file startswith = Ok [].
Proof.
  intros Hfile Hno. unfold read_file. rewrite Hfile.
  now apply read_lines_no_marker.
Qed.

Lemma lstrip_blank s : isblank s = true -> PyStr.lstrip s = "".
Proof.
  induction s as [|c s IH]; simpl; intros Hb; [reflexivity |].
  apply andb_prop in Hb. destruct Hb as [Hc Hs].
  rewrite Hc. now apply IH.
Qed.

Lemma process_line_blank line :
  isblank line = true -> __process_line line = Err IndexError.
Proof.
  intros Hb. unfold __process_line, PyStr.strip.
  now rewrite (lstrip_blank _ Hb).
Qed.

Lemma blank_not_terminator line :
  isblank line = true -> PyStr.startswith line "};" = false.
Proof.
  destruct line as [|c s]; simpl; intros Hb; [reflexivity |].
  destruct (Ascii.eqb_spec c "}") as [-> | _]; [| reflexivity].
  discriminate Hb.
Qed.

(** C10. A line of white space only makes [__process_line] fail on
    [items[0]] with an [IndexError]; and [read_file] fails with it on
    every text whose first line is the marker line and whose second line
    is such a blank line (one that is not itself a marker line). *)
Theorem read_file_blank_line_IndexError :
  (forall line, isblank line = true -> __process_line line = Err IndexError)
  /\ (forall fs file startswith text decl blank rest,
         fs file = Some text ->
         PyStr.lines text = decl :: blank :: rest ->
         PyStr.startswith decl startswith = true ->
         PyStr.startswith blank startswith = false ->
         isblank blank = true ->
         read_file fs file startswith = Err IndexError).
Proof.
  split; [exact process_line_blank |].
  intros fs file startswith text decl blank rest Hfile Hlines Hd Hm Hb.
  unfold read_file. rewrite Hfile, Hlines. cbn [read_lines].
  rewrite Hd, Hm, (blank_not_terminator _ Hb), (process_line_blank _ Hb).
  reflexivity.
Qed.

Lemma read_file_no_marker_witness :
  Samples.single_file "sample.h" Samples.header_no_marker "sample.h"
  = Some Samples.header_no_marker
  /\ read_file (Samples.single_file "sample.h" Samples.header_no_marker)
               "sample.h" default_startswith
     = Ok [].
Proof.
  split; [reflexivity |].
  apply (read_file_no_marker
           (Samples.single_file "sample.h" Samples.header_no_marker)
           "sample.h" default_startswith Samples.header_no_marker).
  - reflexivity.
  - intros line Hin. vm_compute in Hin.
    repeat (destruct Hin as [<- | Hin]; [reflexivity |]).
    destruct Hin.
Defined.

Lemma read_file_blank_line_IndexError_witness :
  PyStr.lines Samples.header_blank
  = Samples.declaration :: Samples.nl
      :: PyStr.lines ("0x00, 0x01, 0x02," ++ Samples.nl ++ Samples.terminator)
  /\ isblank Samples.nl = true
  /\ read_file (Samples.single_file "sample.h" Samples.header_blank)
               "sample.h" default_startswith
     = Err IndexError.
Proof.
  split; [reflexivity | split; [reflexivity |]].
  apply (proj2 read_file_blank_line_IndexError
           (Samples.single_file "sample.h" Samples.header_blank)
           "sample.h" default_startswith Samples.header_blank
           Samples.declaration Samples.nl
           (PyStr.lines
              ("0x00, 0x01, 0x02," ++ Samples.nl ++ Samples.terminator)));
    reflexivity.
Defined.

Example read_file_decimal_from_one :
  read_file (Samples.single_file "sample.h" Samples.header_dec_from_one)
            "sample.h" default_startswith
  = Ok [1; 2; 3]%Z.
Proof. reflexivity. Qed.

(** C5, at the samples 0, 1, 2: written as [0x00, 0x01, 0x02] the line
    yields the three integers, written as [0, 1, 2] it yields nothing,
    because the decimal branch is taken for the leading characters 1 to 9
    only. *)
Theorem read_file_decimal_leading_zero :
  read_file (Samples.single_file "sample.h" Samples.header_hex)
            "sample.h" default_startswith
  = Ok [0; 1; 2]%Z
  /\ read_file (Samples.single_file "sample.h" Samples.header_dec)
               "sample.h" default_startswith
     = Ok []
  /\ __process_line "0, 1, 2," = Ok [].
Proof. repeat split. Qed.

End Read_file.

(* ------------------------------------------------------------------ *)
(** ** The driver *)
(* ------------------------------------------------------------------ *)

Section Driver_claims.

Import Main.
Local Open Scope string_scope.

Variable write_wavefile : list Z -> string -> option Z -> option exception.

(** The test on [vars(args)] never fires: both keys are always there. *)
Lemma main_never_usage_error fs args message :
  snd (main write_wavefile fs args) <> UsageError message.
Proof.
  unfold main. cbn [vars key_in existsb String.eqb Ascii.eqb Bool.eqb
                    andb orb negb].
  destruct (Filereader.read_file fs (path args) (dec args)) as [sample | e];
    [| discriminate].
  unfold run_pipeline.
  destruct (if truthy_int (ratio args) then _ else _) as [s | e];
    [| discriminate].
  destruct (truthy_str (wb args)); cbn [snd];
    [destruct (write_wavefile _ _ _) |]; cbn [snd];
    try discriminate; destruct (plt args); discriminate.
Qed.

(** C6, at [sample.h -wb out.wav] without [-sr]: no usage error; the
    file is opened and read, and the wave writer is called with no
    sample rate. *)
Theorem main_writeback_without_samplerate :
  let run :=
    main write_wavefile
         (Samples.single_file "sample.h" Samples.header_hex)
         Samples.writeback_without_samplerate in
  fst run
  = [FileRead "sample.h"; WavefileWrite [128; 129; 130]%Z "out.wav" None]
  /\ forall message, snd run <> UsageError message.
Proof.
  split.
  - unfold main. vm_compute.
    now destruct (write_wavefile _ _ _).
  - intros message. apply main_never_usage_error.
Qed.

End Driver_claims.

(* ------------------------------------------------------------------ *)
(** ** More on the converter *)
(* ------------------------------------------------------------------ *)

Section Converter_properties.

Import Converter Window.
Local Open Scope Z_scope.

Lemma blocks_one l : blocks 1 l = map (fun x => [x]) l.
Proof.
  induction l as [|a l IH]; [reflexivity |].
  rewrite blocks_step by (simpl; lia). simpl. now rewrite IH.
Qed.

(** X1. With ratio 1 the reducer returns its input unchanged, as long as
    every sample is below [2^53] in magnitude (above, a sample is rounded
    to the nearest float). *)
Theorem reduce_samplerate_ratio_one data :
  Forall (fun v => Z.abs v < 2 ^ 53) data ->
  reduce_samplerate data 1 = Ok data.
Proof.
  intros Hdata. destruct data as [|x rest]; [reflexivity |].
  inversion Hdata as [|? ? Hx Hrest]; subst.
  rewrite reduce_samplerate_blocks_exact; [| lia | reflexivity | exact Hx |].
  - rewrite Z.quot_1_r. do 2 f_equal.
    change (Z.abs_nat 1) with 1%nat. rewrite blocks_one, map_map.
    rewrite <- (map_id rest) at 2. apply map_ext. intros a.
    unfold sum. simpl. now rewrite Z.add_0_r, Z.quot_1_r.
  - change (Z.abs_nat 1) with 1%nat. rewrite blocks_one.
    apply Forall_map. eapply Forall_impl; [| exact Hrest].
    intros a Ha. unfold sum. cbn [fold_right]. now rewrite Z.add_0_r.
Qed.

Lemma reduce_samplerate_ratio_one_witness :
  Forall (fun v => Z.abs v < 2 ^ 53) [3; -1; 255]
  /\ reduce_samplerate [3; -1; 255] 1 = Ok [3; -1; 255].
Proof.
  assert (H : Forall (fun v => Z.abs v < 2 ^ 53) [3; -1; 255]).
  { repeat constructor. }
  split; [exact H |].
  apply (reduce_samplerate_ratio_one [3; -1; 255] H).
Defined.

(** X2. For a non-zero ratio (negative ones included), whenever the
    reducer returns, it returns no element for the empty input and
    [1 + (n - 1) / |ratio|] elements for an input of [n > 0] elements; and
    it does return when the samples are bounded by [bound] with
    [|ratio| * bound] below [2^53]. *)
Theorem reduce_samplerate_output_length :
  (forall data ratio o,
      ratio <> 0 ->
      reduce_samplerate data ratio = Ok o ->
      length o
      = match length data with
        | O => O
        | S m => S (m / Z.abs_nat ratio)
        end)
  /\ (forall data ratio bound,
         ratio <> 0 -> Z.abs ratio < 2 ^ 53 ->
         Forall (fun v => Z.abs v <= bound) data ->
         Z.abs ratio * bound < 2 ^ 53 ->
         exists o, reduce_samplerate data ratio = Ok o).
Proof.
  split.
  - intros data ratio o Hr Hrun.
    now apply (reduce_samplerate_length data ratio o Hr).
  - intros data ratio bound Hr Hrb Hdata Hbound. eexists.
    now apply (reduce_samplerate_small data ratio bound).
Qed.

Lemma reduce_samplerate_output_length_witness :
  -3 <> 0 /\
  reduce_samplerate [7; 1; 2; 3; 4; 5; 6; 7] (-3) = Ok [-2; -2; -5]
  /\ length [-2; -2; -5] = 3%nat.
Proof.
  split; [lia |].
  assert (Hrun : reduce_samplerate [7; 1; 2; 3; 4; 5; 6; 7] (-3)
                 = Ok [-2; -2; -5]) by (vm_compute; reflexivity).
  split; [exact Hrun |].
  apply (proj1 reduce_samplerate_output_length
               [7; 1; 2; 3; 4; 5; 6; 7] (-3) [-2; -2; -5]);
    [lia | exact Hrun].
Defined.

Lemma reduce_loop_extends ratio data :
  forall i st st',
    reduce_loop ratio i st data = Ok st' ->
    exists more, out st' = out st ++ more.
Proof.
  induction data as [|x rest IH]; intros i st st' Hrun.
  - injection Hrun as <-. exists []. now rewrite app_nil_r.
  - cbn [reduce_loop] in Hrun.
    destruct (reduce_step ratio st i x) as [st1 | e] eqn:Hstep;
      cbn [bind] in Hrun; [| discriminate].
    destruct (IH _ _ _ Hrun) as [more Hmore].
    unfold reduce_step in Hstep.
    destruct (add_sample (sample_sum st) x) as [s | e]; cbn [bind] in Hstep;
      [| discriminate].
    destruct (ratio =? 0); [discriminate |].
    destruct (i mod ratio =? 0).
    + destruct (int_truediv s ratio) as [q | e]; cbn [bind] in Hstep;
        [| discriminate].
      injection Hstep as <-. cbn [out] in Hmore.
      eexists. rewrite Hmore, <- app_assoc. reflexivity.
    + injection Hstep as <-. cbn [out] in Hmore.
      eexists. exact Hmore.
Qed.

(** X3. What is emitted is never revised: the output for an input extended
    at its end starts with the output for the input itself. *)
Theorem reduce_samplerate_prefix data more ratio o :
  reduce_samplerate (data ++ more) ratio = Ok o ->
  exists o1 o2,
    reduce_samplerate data ratio = Ok o1 /\ o = o1 ++ o2.
Proof.
  unfold reduce_samplerate. rewrite reduce_loop_app.
  destruct (reduce_loop ratio 0 initial_state data) as [st1 | e];
    cbn [bind]; [| discriminate].
  destruct (reduce_loop ratio (0 + Z.of_nat (length data)) st1 more)
    as [st2 | e] eqn:Hrun; cbn [bind]; [| discriminate].
  intros [= <-]. destruct (reduce_loop_extends _ _ _ _ _ Hrun) as [o2 Ho2].
  exists (out st1), o2. split; [reflexivity | exact Ho2].
Qed.

Lemma reduce_samplerate_prefix_witness :
  reduce_samplerate ([1; 2; 3] ++ [4; 5]) 2 = Ok [0; 2; 4]
  /\ exists o1 o2,
      reduce_samplerate [1; 2; 3] 2 = Ok o1 /\ [0; 2; 4] = o1 ++ o2.
Proof.
  assert (Hrun : reduce_samplerate ([1; 2; 3] ++ [4; 5]) 2 = Ok [0; 2; 4])
    by (vm_compute; reflexivity).
  split; [exact Hrun |].
  apply (reduce_samplerate_prefix [1; 2; 3] [4; 5] 2 [0; 2; 4] Hrun).
Defined.

Lemma sum_range top l :
  Forall (fun v => 0 <= v <= top) l ->
  0 <= sum l <= Z.of_nat (length l) * top.
Proof.
  unfold sum. induction 1 as [|a l Ha _ IH]; cbn [fold_right length].
  - lia.
  - rewrite Nat2Z.inj_succ. lia.
Qed.

(** Samples in [[0, top]], a positive ratio, and [ratio * top] below
    [2^53]: the reducer returns, and what it returns is in [[0, top]]. *)
Lemma reduce_samplerate_in_range data ratio top :
  0 < ratio < 2 ^ 53 ->
  Forall (fun v => 0 <= v <= top) data ->
  ratio * top < 2 ^ 53 ->
  exists o,
    reduce_samplerate data ratio = Ok o
    /\ Forall (fun v => 0 <= v <= top) o.
Proof.
  intros [Hr Hrb] Hdata Hbound.
  rewrite (reduce_samplerate_small data ratio top); [| lia | lia | | lia].
  2:{ eapply Forall_impl; [| exact Hdata]. cbn beta. intros; lia. }
  eexists. split; [reflexivity |].
  destruct data as [|x rest]; [constructor |].
  inversion Hdata as [|? ? Hx Hrest]; subst.
  assert (Hq : forall a, 0 <= a <= ratio * top -> 0 <= a ÷ ratio <= top).
  { intros a Ha. split.
    - apply Z.quot_pos; lia.
    - apply Z.quot_le_upper_bound; lia. }
  constructor.
  - apply Hq. nia.
  - apply Forall_map.
    eapply Forall_impl;
      [| apply (blocks_elements (fun v => 0 <= v <= top));
         [lia | exact Hrest]].
    intros blk [Hlen Hblk]. apply Hq.
    pose proof (sum_range top blk Hblk) as Hs.
    rewrite Hlen in Hs. lia.
Qed.

(** X4. Averaging keeps the range: for a positive ratio and samples that
    all lie in [[0, top]], with [ratio * top] below [2^53], the reducer
    returns, and every element it returns lies in [[0, top]]. *)
Theorem reduce_samplerate_range data ratio top :
  0 < ratio < 2 ^ 53 ->
  Forall (fun v => 0 <= v <= top) data ->
  ratio * top < 2 ^ 53 ->
  exists o,
    reduce_samplerate data ratio = Ok o
    /\ Forall (fun v => 0 <= v <= top) o.
Proof. apply reduce_samplerate_in_range. Qed.

Lemma reduce_samplerate_range_witness :
  0 < 2 < 2 ^ 53 /\ 2 * 255 < 2 ^ 53 /\
  exists o,
    reduce_samplerate [1; 2; 3; 4; 5] 2 = Ok o
    /\ Forall (fun v => 0 <= v <= 255) o.
Proof.
  split; [split; reflexivity | split; [reflexivity |]].
  apply (reduce_samplerate_range [1; 2; 3; 4; 5] 2 255).
  - split; reflexivity.
  - repeat constructor; lia.
  - reflexivity.
Defined.

(** X5. On [[0, 2*max_value+1]] the remap of one sample stays in that
    range and exchanges its two halves: the low half [[0, max_value]] goes
    to the high half and back. *)
Theorem twos_complement_value_swaps_halves max_value v :
  0 <= max_value ->
  0 <= v <= 2 * max_value + 1 ->
  0 <= twos_complement_value max_value v <= 2 * max_value + 1
  /\ (v <= max_value <-> max_value < twos_complement_value max_value v).
Proof.
  intros Hm Hv. destruct (Z_gt_le_dec v max_value) as [Hh | Hl].
  - rewrite (twos_complement_value_high _ _ Hh). lia.
  - rewrite (twos_complement_value_low _ _ Hl). lia.
Qed.

Lemma twos_complement_value_swaps_halves_witness :
  0 <= 127 /\ 0 <= 72 <= 2 * 127 + 1 /\
  0 <= twos_complement_value 127 72 <= 2 * 127 + 1.
Proof.
  split; [lia | split; [lia |]].
  apply (twos_complement_value_swaps_halves 127 72); lia.
Defined.

(** X6. For [max_value >= 0] the remap never yields a negative number,
    whatever integer it is given: the result is a biased unsigned value,
    not a signed one. *)
Theorem twos_complement_value_nonnegative max_value v :
  0 <= max_value -> 0 <= twos_complement_value max_value v.
Proof.
  intros Hm. destruct (Z_gt_le_dec v max_value) as [Hh | Hl].
  - rewrite (twos_complement_value_high _ _ Hh). lia.
  - rewrite (twos_complement_value_low _ _ Hl). lia.
Qed.

Lemma twos_complement_value_nonnegative_witness :
  0 <= 127 /\ 0 <= twos_complement_value 127 (-200).
Proof.
  split; [lia |].
  apply (twos_complement_value_nonnegative 127 (-200)). lia.
Defined.

End Converter_properties.

(* ------------------------------------------------------------------ *)
(** ** More on the array extractor *)
(* ------------------------------------------------------------------ *)

Section Filereader_errors.

Import Filereader.
Local Open Scope string_scope.

Lemma scan_digits_error base s :
  forall prev digits acc e,
    PyInt.scan_digits base s prev digits acc = Err e -> e = ValueError.
Proof.
  induction s as [|c s IH]; intros prev digits acc e; cbn [PyInt.scan_digits].
  - destruct prev; [intros [= <-]; reflexivity | discriminate].
  - destruct (PyInt.is_underscore c).
    + destruct prev; [intros [= <-]; reflexivity | apply IH].
    + destruct (PyInt.digit_value c) as [d |].
      * destruct (d <? base)%Z; [apply IH |].
        destruct prev; [intros [= <-]; reflexivity | discriminate].
      * destruct prev; [intros [= <-]; reflexivity | discriminate].
Qed.

Lemma match_underscore_error {A : Type} (s : string) (k : result A) e :
  match s with
  | String "_"%char _ => Err ValueError
  | _ => k
  end = Err e ->
  e = ValueError \/ k = Err e.
Proof.
  destruct s as [|c t]; [now right |].
  destruct c as [[] [] [] [] [] [] [] []]; intros H;
    first [now right | left; now injection H].
Qed.

Lemma parse_error base s e : PyInt.parse base s = Err e -> e = ValueError.
Proof.
  unfold PyInt.parse.
  destruct (PyInt.skip_sign (PyInt.skip_space s)) as [sign s1].
  intros H. apply match_underscore_error in H. destruct H as [-> | H];
    [reflexivity |].
  destruct (PyInt.scan_digits base (PyInt.skip_prefix base s1) false 0 0)
    as [[[v digits] rest] | e'] eqn:Hscan; cbn [bind] in H.
  - destruct digits; [now injection H |].
    destruct (PyInt.skip_space rest); [| now injection H].
    destruct (PyInt.too_many_digits base (S digits));
      [now injection H | discriminate].
  - injection H as <-. eapply scan_digits_error, Hscan.
Qed.

Lemma mapM_error {A B : Type} (f : A -> result B) (P : exception -> Prop) l :
  (forall a e, f a = Err e -> P e) ->
  forall e, mapM f l = Err e -> P e.
Proof.
  intros Hf. induction l as [|a l IH]; intros e; cbn [mapM];
    [discriminate |].
  destruct (f a) as [b | e1] eqn:Hfa; cbn [bind].
  - destruct (mapM f l) as [bs | e2]; cbn [bind]; [discriminate |].
    intros [= <-]. now apply IH.
  - intros [= <-]. eapply Hf, Hfa.
Qed.

Lemma rstrip_empty s : PyStr.rstrip s = "" -> isblank s = true.
Proof.
  induction s as [|c s IH]; cbn [PyStr.rstrip isblank]; [reflexivity |].
  destruct (PyStr.rstrip s) as [|r0 r]; [| discriminate].
  destruct (PyStr.isspace c); [intros _; now apply IH | discriminate].
Qed.

Lemma isblank_lstrip s : isblank (PyStr.lstrip s) = true -> isblank s = true.
Proof.
  induction s as [|c s IH]; cbn [PyStr.lstrip isblank]; [reflexivity |].
  destruct (PyStr.isspace c) eqn:Hc; [exact IH |].
  cbn [isblank]. now rewrite Hc.
Qed.

Lemma strip_empty_iff s : PyStr.strip s = "" <-> isblank s = true.
Proof.
  split.
  - intros H. now apply isblank_lstrip, rstrip_empty.
  - intros H. unfold PyStr.strip. now rewrite (lstrip_blank _ H).
Qed.

Lemma split_nonempty sep s : PyStr.split sep s <> [].
Proof.
  destruct s as [|c s]; cbn [PyStr.split]; [discriminate |].
  destruct (Ascii.eqb c sep); [discriminate |].
  destruct (PyStr.split sep s); discriminate.
Qed.

Lemma split_singleton sep s x : PyStr.split sep s = [x] -> x = s.
Proof.
  revert x. induction s as [|c s IH]; intros x; cbn [PyStr.split].
  - now intros [= <-].
  - destruct (Ascii.eqb c sep).
    + intros [= _ H]. now apply split_nonempty in H.
    + destruct (PyStr.split sep s) as [|h t] eqn:Hs.
      * now apply split_nonempty in Hs.
      * intros [= <- ->]. now rewrite (IH h eq_refl).
Qed.

(** The items a non-blank line is cut into, once a last empty one is
    dropped, are not empty: [items[0]] is there. *)
Lemma items_first_defined s :
  s <> "" ->
  exists last items first,
    item_last (PyStr.split "," s) = Ok last
    /\ (if PyStr.truthy last then PyStr.split "," s
        else removelast (PyStr.split "," s)) = items
    /\ item_first items = Ok first.
Proof.
  intros Hs.
  destruct (exists_last (split_nonempty "," s)) as [init [last Hsplit]].
  rewrite Hsplit. unfold item_last. rewrite rev_unit.
  exists last. destruct last as [|c l]; cbn [PyStr.truthy].
  - rewrite removelast_last. destruct init as [|first init].
    + apply split_singleton in Hsplit. now symmetry in Hsplit.
    + now exists (first :: init), first.
  - destruct init as [|first init]; cbn [app].
    + now exists [String c l], (String c l).
    + now exists (first :: init ++ [String c l]), first.
Qed.

Lemma process_line_error_kinds line e :
  __process_line line = Err e ->
  (e = IndexError /\ isblank line = true)
  \/ (e = ValueError /\ isblank line = false).
Proof.
  destruct (isblank line) eqn:Hb.
  - rewrite (process_line_blank _ Hb). intros [= <-]. now left.
  - intros H. right. split; [| reflexivity].
    assert (Hs : PyStr.strip line <> "").
    { intros E. apply strip_empty_iff in E. congruence. }
    unfold __process_line in H.
    destruct (items_first_defined _ Hs) as [last [items [first [Hl [Hi Hf]]]]].
    rewrite Hl in H. cbn [bind] in H. rewrite Hi, Hf in H. cbn [bind] in H.
    destruct (PyStr.startswith first "0x").
    + eapply (mapM_error (PyInt.parse 16) (fun e => e = ValueError));
        [intros a e'; apply parse_error | exact H].
    + destruct (PyStr.startswith_any first decimal_prefixes);
        [| discriminate].
      eapply (mapM_error (PyInt.parse 10) (fun e => e = ValueError));
        [intros a e'; apply parse_error | exact H].
Qed.

(** X7. [__process_line] raises an [IndexError] on the blank lines and on
    no others; every other failure is the [ValueError] of a literal that
    [int] rejects. *)
Theorem process_line_errors line e :
  __process_line line = Err e ->
  (e = IndexError /\ isblank line = true)
  \/ (e = ValueError /\ isblank line = false).
Proof. apply process_line_error_kinds. Qed.

Lemma process_line_errors_witness :
  __process_line "12, 0x4" = Err ValueError
  /\ ((ValueError = IndexError /\ isblank "12, 0x4" = true)
      \/ (ValueError = ValueError /\ isblank "12, 0x4" = false)).
Proof.
  split; [reflexivity |].
  apply (process_line_errors "12, 0x4" ValueError). reflexivity.
Defined.

Lemma read_lines_errors startswith lines :
  forall is_processing out e,
    read_lines startswith is_processing out lines = Err e ->
    e = IndexError \/ e = ValueError.
Proof.
  induction lines as [|line rest IH]; intros b out e; cbn [read_lines];
    [discriminate |].
  destruct (PyStr.startswith line startswith); [apply IH |].
  destruct (PyStr.startswith line "};"); [discriminate |].
  destruct b; [| apply IH].
  destruct (__process_line line) as [vs | e1] eqn:Hp; cbn [bind];
    [apply IH |].
  intros [= <-]. apply process_line_error_kinds in Hp. tauto.
Qed.

End Filereader_errors.

Section Filereader_layout.

Import Filereader.
Local Open Scope string_scope.
Local Open Scope list_scope.

Lemma read_lines_skip startswith pre :
  forall out rest,
    Forall (plain_line startswith) pre ->
    read_lines startswith false out (pre ++ rest)
    = read_lines startswith false out rest.
Proof.
  induction pre as [|line pre IH]; intros out rest Hpre; [reflexivity |].
  inversion Hpre as [|? ? [Hm Ht] Hrest]; subst.
  cbn [app read_lines]. rewrite Hm, Ht. now apply IH.
Qed.

Lemma read_lines_collect startswith data :
  forall out rest,
    Forall (plain_line startswith) data ->
    read_lines startswith true out (data ++ rest)
    = (vss <- mapM __process_line data ;;
       read_lines startswith true (out ++ concat vss) rest)%py.
Proof.
  induction data as [|line data IH]; intros out rest Hdata.
  - cbn [app mapM bind concat]. now rewrite app_nil_r.
  - inversion Hdata as [|? ? [Hm Ht] Hrest]; subst.
    cbn [app read_lines mapM]. rewrite Hm, Ht.
    destruct (__process_line line) as [vs | e]; cbn [bind]; [| reflexivity].
    rewrite (IH _ _ Hrest).
    destruct (mapM __process_line data) as [vss | e]; cbn [bind concat];
      [| reflexivity].
    now rewrite app_assoc.
Qed.

(** X8. The layout the reader accepts.  Lines before the declaration that
    start with neither the marker nor [};] are skipped; the lines between
    the declaration and the first line starting with [};] are each handed
    to [__process_line] and their integers concatenated in order; nothing
    after that line is looked at.  The same holds when the file ends
    without a closing line. *)
Theorem read_file_layout fs file startswith text pre decl data :
  fs file = Some text ->
  Forall (plain_line startswith) pre ->
  PyStr.startswith decl startswith = true ->
  Forall (plain_line startswith) data ->
  (forall term post,
      PyStr.lines text = pre ++ decl :: data ++ term :: post ->
      PyStr.startswith term startswith = false ->
      PyStr.startswith term "};" = true ->
      read_file fs file startswith
      = (vss <- mapM __process_line data ;; Ok (concat vss))%py)
  /\ (PyStr.lines text = pre ++ decl :: data ->
      read_file fs file startswith
      = (vss <- mapM __process_line data ;; Ok (concat vss))%py).
Proof.
  intros Hfile Hpre Hdecl Hdata. unfold read_file. rewrite Hfile. split.
  - intros term post -> Hm Ht.
    rewrite (read_lines_skip _ _ _ _ Hpre). cbn [read_lines].
    rewrite Hdecl, (read_lines_collect _ _ _ _ Hdata).
    destruct (mapM __process_line data) as [vss | e]; cbn [bind];
      [| reflexivity].
    cbn [read_lines app]. now rewrite Hm, Ht.
  - intros ->.
    rewrite (read_lines_skip _ _ _ _ Hpre). cbn [read_lines].
    rewrite Hdecl. rewrite <- (app_nil_r data) at 1.
    rewrite (read_lines_collect _ _ _ _ Hdata).
    destruct (mapM __process_line data) as [vss | e]; cbn [bind];
      reflexivity.
Qed.

Lemma read_lines_closed_early startswith pre :
  forall out term post,
    (forall line, In line pre -> PyStr.startswith line startswith = false) ->
    PyStr.startswith term startswith = false ->
    PyStr.startswith term "};" = true ->
    read_lines startswith false out (pre ++ term :: post) = Ok out.
Proof.
  induction pre as [|line pre IH]; intros out term post Hpre Hm Ht.
  - cbn [app read_lines]. now rewrite Hm, Ht.
  - cbn [app read_lines]. rewrite (Hpre line) by now left.
    destruct (PyStr.startswith line "};"); [reflexivity |].
    apply IH; [| assumption | assumption].
    intros l Hl. apply Hpre. now right.
Qed.

(** X9. A line starting with [};] that comes before every marker line
    ends the reading with the empty sequence, whatever follows it: a
    declaration after it is never reached. *)
Theorem read_file_closed_before_marker fs file startswith text pre term post :
  fs file = Some text ->
  PyStr.lines text = pre ++ term :: post ->
  (forall line, In line pre -> PyStr.startswith line startswith = false) ->
  PyStr.startswith term startswith = false ->
  PyStr.startswith term "};" = true ->
  read_file fs file startswith = Ok [].
Proof.
  intros Hfile Hlines Hpre Hm Ht. unfold read_file.
  rewrite Hfile, Hlines. now apply read_lines_closed_early.
Qed.

End Filereader_layout.

(* ------------------------------------------------------------------ *)
(** ** Reading back what the header converters write *)
(* ------------------------------------------------------------------ *)

Section Literal_parsing.

Import Literal.
Local Open Scope string_scope.

Lemma scan_dec d :
  forall k acc,
    PyInt.scan_digits 10 (DecimalString.NilEmpty.string_of_uint d) false k acc
    = Ok (dec_value d acc, (k + Decimal.nb_digits d)%nat, "").
Proof.
  induction d; intros k acc;
    cbn [DecimalString.NilEmpty.string_of_uint Decimal.nb_digits dec_value];
    [cbn; now rewrite Nat.add_0_r | ..];
    rewrite Nat.add_succ_r, <- Nat.add_succ_l, <- IHd; reflexivity.
Qed.

Lemma scan_hex d :
  forall k acc,
    PyInt.scan_digits 16 (HexadecimalString.NilEmpty.string_of_uint d)
                      false k acc
    = Ok (hex_value d acc, (k + Hexadecimal.nb_digits d)%nat, "").
Proof.
  induction d; intros k acc;
    cbn [HexadecimalString.NilEmpty.string_of_uint Hexadecimal.nb_digits
         hex_value];
    [cbn; now rewrite Nat.add_0_r | ..];
    rewrite Nat.add_succ_r, <- Nat.add_succ_l, <- IHd; reflexivity.
Qed.

Lemma dec_value_pos l :
  forall acc, dec_value l (Z.pos acc) = Z.pos (Pos.of_uint_acc l acc).
Proof.
  induction l; intros acc; cbn [dec_value Pos.of_uint_acc];
    [reflexivity | ..]; rewrite <- IHl; f_equal; lia.
Qed.

Lemma dec_value_of_uint d : dec_value d 0 = Z.of_N (Pos.of_uint d).
Proof.
  induction d; cbn [dec_value Pos.of_uint]; [reflexivity | exact IHd | ..];
    apply dec_value_pos.
Qed.

Lemma hex_value_pos l :
  forall acc, hex_value l (Z.pos acc) = Z.pos (Pos.of_hex_uint_acc l acc).
Proof.
  induction l; intros acc; cbn [hex_value Pos.of_hex_uint_acc];
    [reflexivity | ..]; rewrite <- IHl; f_equal; lia.
Qed.

Lemma hex_value_of_uint d : hex_value d 0 = Z.of_N (Pos.of_hex_uint d).
Proof.
  induction d; cbn [hex_value Pos.of_hex_uint]; [reflexivity | exact IHd | ..];
    apply hex_value_pos.
Qed.


Lemma skip_sign_other c t :
  c <> "+"%char -> c <> "-"%char ->
  PyInt.skip_sign (String c t) = (1%Z, String c t).
Proof.
  intros Hp Hm.
  destruct c as [[] [] [] [] [] [] [] []];
    first [reflexivity | exfalso; apply Hp; reflexivity
          | exfalso; apply Hm; reflexivity].
Qed.

Lemma match_underscore_other {A : Type} (s : string) (k : result A) :
  PyStr.startswith s "_" = false ->
  match s with
  | String "_"%char _ => Err ValueError
  | _ => k
  end = k.
Proof.
  destruct s as [|c t]; [reflexivity |].
  destruct c as [[] [] [] [] [] [] [] []]; intros H;
    first [reflexivity | destruct t; discriminate H].
Qed.

Lemma skip_prefix_10 s : PyInt.skip_prefix 10 s = s.
Proof.
  destruct s as [|c [|x t]]; [reflexivity | |];
    destruct c as [[] [] [] [] [] [] [] []]; reflexivity.
Qed.

Lemma parse_leading_blank base s :
  PyInt.parse base (String " " s) = PyInt.parse base s.
Proof. reflexivity. Qed.

(** [int] on a literal that starts with a character of the number. *)
Lemma parse_from_scan base c t s2 v k :
  PyInt.isspace c = false ->
  c <> "+"%char -> c <> "-"%char ->
  PyInt.skip_prefix base (String c t) = s2 ->
  PyStr.startswith s2 "_" = false ->
  PyInt.scan_digits base s2 false 0 0 = Ok (v, S k, "") ->
  PyInt.too_many_digits base (S k) = false ->
  PyInt.parse base (String c t) = Ok v.
Proof.
  intros Hsp Hp Hm Hpre Hus Hscan Hlimit. unfold PyInt.parse.
  cbn [PyInt.skip_space]. rewrite Hsp, (skip_sign_other _ _ Hp Hm), Hpre.
  rewrite (match_underscore_other _ _ Hus), Hscan.
  cbn [bind PyInt.skip_space]. rewrite Hlimit.
  f_equal. lia.
Qed.

Lemma length_dec_numeral d :
  String.length (DecimalString.NilEmpty.string_of_uint d)
  = Decimal.nb_digits d.
Proof.
  induction d;
    cbn [DecimalString.NilEmpty.string_of_uint String.length
         Decimal.nb_digits];
    [reflexivity | ..]; now rewrite IHd.
Qed.

Lemma few_digits k :
  (Z.of_nat k <= PyInt.int_max_str_digits)%Z ->
  PyInt.too_many_digits 10 k = false.
Proof.
  intros H. unfold PyInt.too_many_digits. apply andb_false_iff. right.
  now apply Z.ltb_ge.
Qed.

Lemma parse_dec_numeral d :
  d <> Decimal.Nil ->
  (Z.of_nat (Decimal.nb_digits d) <= PyInt.int_max_str_digits)%Z ->
  PyInt.parse 10 (DecimalString.NilEmpty.string_of_uint d)
  = Ok (dec_value d 0).
Proof.
  intros Hd Hfew. apply few_digits in Hfew.
  destruct d as [|l|l|l|l|l|l|l|l|l|l]; [contradiction | ..];
    cbn [DecimalString.NilEmpty.string_of_uint];
    (eapply parse_from_scan;
     [reflexivity | discriminate | discriminate | apply skip_prefix_10
     | reflexivity | | exact Hfew]).
  - apply (scan_dec (Decimal.D0 l) 0 0).
  - apply (scan_dec (Decimal.D1 l) 0 0).
  - apply (scan_dec (Decimal.D2 l) 0 0).
  - apply (scan_dec (Decimal.D3 l) 0 0).
  - apply (scan_dec (Decimal.D4 l) 0 0).
  - apply (scan_dec (Decimal.D5 l) 0 0).
  - apply (scan_dec (Decimal.D6 l) 0 0).
  - apply (scan_dec (Decimal.D7 l) 0 0).
  - apply (scan_dec (Decimal.D8 l) 0 0).
  - apply (scan_dec (Decimal.D9 l) 0 0).
Qed.

Lemma parse_hex_numeral d :
  d <> Hexadecimal.Nil ->
  PyInt.parse 16 ("0x" ++ HexadecimalString.NilEmpty.string_of_uint d)
  = Ok (hex_value d 0).
Proof.
  intros Hd. pose proof (scan_hex d 0 0) as Hscan.
  destruct d; [contradiction | ..];
    cbn [HexadecimalString.NilEmpty.string_of_uint append] in *;
    (eapply parse_from_scan;
     [reflexivity | discriminate | discriminate | reflexivity
     | reflexivity | exact Hscan | reflexivity]).
Qed.

Lemma to_uint_nonnil n : N.to_uint n <> Decimal.Nil.
Proof.
  destruct n as [|p]; [discriminate | apply DecimalPos.Unsigned.to_uint_nonnil].
Qed.

Lemma to_hex_uint_nonnil n : N.to_hex_uint n <> Hexadecimal.Nil.
Proof.
  destruct n as [|p];
    [discriminate | apply HexadecimalPos.Unsigned.to_uint_nonnil].
Qed.

Lemma dec_unfold n :
  dec n = DecimalString.NilEmpty.string_of_uint (N.to_uint n).
Proof.
  unfold dec. pose proof (to_uint_nonnil n) as H.
  destruct (N.to_uint n); [contradiction | ..]; reflexivity.
Qed.

Lemma hex_unfold n :
  hex n = "0x" ++ HexadecimalString.NilEmpty.string_of_uint (N.to_hex_uint n).
Proof.
  unfold hex. pose proof (to_hex_uint_nonnil n) as H.
  destruct (N.to_hex_uint n); [contradiction | ..]; reflexivity.
Qed.

Lemma parse_dec n : short n -> PyInt.parse 10 (dec n) = Ok (Z.of_N n).
Proof.
  unfold short. rewrite dec_unfold, length_dec_numeral. intros Hfew.
  rewrite parse_dec_numeral by (apply to_uint_nonnil || exact Hfew).
  rewrite dec_value_of_uint.
  change (Pos.of_uint (N.to_uint n)) with (N.of_uint (N.to_uint n)).
  now rewrite DecimalN.Unsigned.of_to.
Qed.

Lemma parse_hex n : PyInt.parse 16 (hex n) = Ok (Z.of_N n).
Proof.
  rewrite hex_unfold, parse_hex_numeral by apply to_hex_uint_nonnil.
  rewrite hex_value_of_uint.
  change (Pos.of_hex_uint (N.to_hex_uint n))
    with (N.of_hex_uint (N.to_hex_uint n)).
  now rewrite HexadecimalN.Unsigned.of_to.
Qed.


(** *** Strings put together *)

Lemma append_assoc (a b c : string) : (a ++ b) ++ c = a ++ (b ++ c).
Proof.
  induction a as [|x a IH]; cbn [append]; [reflexivity | now rewrite IH].
Qed.

Lemma startswith_nil s : PyStr.startswith s "" = true.
Proof. now destruct s. Qed.

Lemma all_chars_app P a b :
  all_chars P (a ++ b) = all_chars P a && all_chars P b.
Proof.
  induction a as [|x a IH]; cbn [append all_chars]; [reflexivity |].
  now rewrite IH, andb_assoc.
Qed.

Lemma all_chars_impl (P Q : ascii -> bool) s :
  (forall c, P c = true -> Q c = true) ->
  all_chars P s = true -> all_chars Q s = true.
Proof.
  intros HPQ. induction s as [|x s IH]; cbn [all_chars]; [reflexivity |].
  intros H. apply andb_prop in H. destruct H as [Hx Hs].
  now rewrite (HPQ _ Hx), IH.
Qed.

Lemma rstrip_app_space s c :
  PyStr.isspace c = true ->
  PyStr.rstrip (s ++ String c "") = PyStr.rstrip s.
Proof.
  intros Hc. induction s as [|x s IH]; cbn [append PyStr.rstrip].
  - now rewrite Hc.
  - now rewrite IH.
Qed.

Lemma rstrip_app_nonspace s c :
  PyStr.isspace c = false ->
  PyStr.rstrip (s ++ String c "") = s ++ String c "".
Proof.
  intros Hc. induction s as [|x s IH]; cbn [append PyStr.rstrip].
  - now rewrite Hc.
  - rewrite IH. now destruct s.
Qed.

Lemma split_app_comma a b :
  all_chars not_comma a = true ->
  PyStr.split "," (a ++ String "," b) = a :: PyStr.split "," b.
Proof.
  induction a as [|x a IH]; cbn [append all_chars PyStr.split]; intros Ha.
  - reflexivity.
  - apply andb_prop in Ha. destruct Ha as [Hx Ha].
    unfold not_comma in Hx. apply negb_true_iff in Hx. rewrite Hx.
    now rewrite (IH Ha).
Qed.

Lemma split_comma_join items :
  Forall (fun item => all_chars not_comma item = true) items ->
  PyStr.split "," (comma_join items) = (items ++ [""])%list.
Proof.
  induction 1 as [|item items Hitem _ IH]; cbn [comma_join app];
    [reflexivity |].
  change ("," ++ comma_join items) with (String "," (comma_join items)).
  now rewrite (split_app_comma _ _ Hitem), IH.
Qed.

Lemma comma_join_ends item items :
  exists body, comma_join (item :: items) = body ++ ",".
Proof.
  revert item. induction items as [|next items IH]; intros item.
  - exists item. reflexivity.
  - destruct (IH next) as [body Hbody]. exists (item ++ "," ++ body).
    cbn [comma_join] in *. rewrite Hbody. now rewrite !append_assoc.
Qed.

Lemma strip_comma_join c item items :
  PyStr.isspace c = false ->
  PyStr.strip (comma_join (String c item :: items) ++ Samples.nl)
  = comma_join (String c item :: items).
Proof.
  intros Hc. unfold PyStr.strip.
  assert (Hl : PyStr.lstrip (comma_join (String c item :: items) ++ Samples.nl)
               = comma_join (String c item :: items) ++ Samples.nl).
  { cbn [comma_join append PyStr.lstrip]. now rewrite Hc. }
  rewrite Hl. destruct (comma_join_ends (String c item) items) as [body ->].
  unfold Samples.nl. rewrite rstrip_app_space by reflexivity.
  now apply rstrip_app_nonspace.
Qed.


(** *** The characters of the literals *)

Lemma literal_not_comma c : literal_char c = true -> not_comma c = true.
Proof.
  destruct c as [[] [] [] [] [] [] [] []]; vm_compute; intros H;
    first [reflexivity | discriminate H].
Qed.

Lemma literal_not_space c : literal_char c = true -> PyStr.isspace c = false.
Proof.
  destruct c as [[] [] [] [] [] [] [] []]; vm_compute; intros H;
    first [reflexivity | discriminate H].
Qed.

Lemma dec_numeral_chars d :
  all_chars literal_char (DecimalString.NilEmpty.string_of_uint d) = true.
Proof.
  induction d; cbn [DecimalString.NilEmpty.string_of_uint all_chars];
    [reflexivity | ..]; rewrite IHd; reflexivity.
Qed.

Lemma hex_numeral_chars d :
  all_chars literal_char (HexadecimalString.NilEmpty.string_of_uint d) = true.
Proof.
  induction d; cbn [HexadecimalString.NilEmpty.string_of_uint all_chars];
    [reflexivity | ..]; rewrite IHd; reflexivity.
Qed.

Lemma dec_chars n : all_chars literal_char (dec n) = true.
Proof. rewrite dec_unfold. apply dec_numeral_chars. Qed.

Lemma hex_chars n : all_chars literal_char (hex n) = true.
Proof.
  rewrite hex_unfold. cbn [append all_chars].
  now rewrite hex_numeral_chars.
Qed.

Lemma dec_head n : exists c s, dec n = String c s.
Proof.
  rewrite dec_unfold. pose proof (to_uint_nonnil n) as H.
  destruct (N.to_uint n); [contradiction | ..];
    cbn [DecimalString.NilEmpty.string_of_uint]; eauto.
Qed.

(** *** One line of literals *)

Lemma mapM_tokens base lits :
  mapM (PyInt.parse base) (tokens lits) = mapM (PyInt.parse base) lits.
Proof.
  destruct lits as [|x rest]; [reflexivity |].
  cbn [tokens mapM]. destruct (PyInt.parse base x); cbn [bind];
    [| reflexivity].
  f_equal. induction rest as [|y rest IH]; [reflexivity |].
  cbn [map mapM]. rewrite parse_leading_blank.
  destruct (PyInt.parse base y); cbn [bind]; [| reflexivity].
  now rewrite IH.
Qed.

Lemma tokens_not_comma lits :
  Forall (fun lit => all_chars literal_char lit = true) lits ->
  Forall (fun item => all_chars not_comma item = true) (tokens lits).
Proof.
  intros H. destruct H as [|x rest Hx Hrest]; [constructor |].
  cbn [tokens]. constructor.
  - eapply all_chars_impl; [apply literal_not_comma | exact Hx].
  - apply Forall_map. eapply Forall_impl; [| exact Hrest].
    intros lit Hlit. cbn [all_chars].
    now rewrite (all_chars_impl _ _ _ literal_not_comma Hlit).
Qed.

Lemma process_line_data_line c x rest :
  Forall (fun lit => all_chars literal_char lit = true) (String c x :: rest) ->
  Filereader.__process_line (data_line (String c x :: rest))
  = if PyStr.startswith (String c x) "0x"
    then mapM (PyInt.parse 16) (String c x :: rest)
    else if PyStr.startswith_any (String c x) Filereader.decimal_prefixes
         then mapM (PyInt.parse 10) (String c x :: rest)
         else Ok [].
Proof.
  intros Hlits.
  assert (Hc : PyStr.isspace c = false).
  { inversion Hlits as [|? ? Hx _]; subst. cbn [all_chars] in Hx.
    apply andb_prop in Hx. now apply literal_not_space. }
  unfold Filereader.__process_line, data_line.
  change (tokens (String c x :: rest))
    with (String c x :: map (String " "%char) rest).
  rewrite (strip_comma_join _ _ _ Hc).
  change (String c x :: map (String " "%char) rest)
    with (tokens (String c x :: rest)).
  rewrite (split_comma_join _ (tokens_not_comma _ Hlits)).
  unfold Filereader.item_last. rewrite rev_unit. cbn [bind PyStr.truthy].
  rewrite removelast_last. cbn [tokens Filereader.item_first bind].
  change (String c x :: map (String " "%char) rest)
    with (tokens (String c x :: rest)).
  now rewrite !mapM_tokens.
Qed.

Lemma mapM_parse_hex ns :
  mapM (PyInt.parse 16) (map hex ns) = Ok (map Z.of_N ns).
Proof.
  induction ns as [|n ns IH]; [reflexivity |].
  cbn [map mapM]. now rewrite parse_hex, IH.
Qed.

Lemma mapM_parse_dec ns :
  Forall short ns ->
  mapM (PyInt.parse 10) (map dec ns) = Ok (map Z.of_N ns).
Proof.
  induction 1 as [|n ns Hn _ IH]; [reflexivity |].
  cbn [map mapM]. now rewrite (parse_dec n Hn), IH.
Qed.

Lemma to_uint_leading p :
  match Pos.to_uint p with
  | Decimal.Nil | Decimal.D0 _ => False
  | _ => True
  end.
Proof.
  pose proof (DecimalPos.Unsigned.to_of (Pos.to_uint p)) as H.
  rewrite DecimalPos.Unsigned.of_to in H. cbn [N.to_uint] in H.
  pose proof (DecimalPos.Unsigned.to_uint_nonzero p) as Hnz.
  pose proof (DecimalFacts.nzhead_nonzero (Pos.to_uint p)) as Hhd.
  unfold Decimal.unorm in H.
  destruct (Decimal.nzhead (Pos.to_uint p)) eqn:E;
    try (rewrite H; exact I).
  - now contradiction Hnz.
  - now contradiction (Hhd u).
Qed.

(** The first character of the decimal literal of a positive number is
    one of [1] to [9]. *)
Lemma dec_positive_branch p :
  PyStr.startswith (dec (N.pos p)) "0x" = false
  /\ PyStr.startswith_any (dec (N.pos p)) Filereader.decimal_prefixes = true.
Proof.
  rewrite dec_unfold. cbn [N.to_uint].
  pose proof (to_uint_leading p) as H.
  destruct (Pos.to_uint p); try contradiction;
    cbn [DecimalString.NilEmpty.string_of_uint];
    unfold PyStr.startswith_any, Filereader.decimal_prefixes;
    cbn; rewrite ?startswith_nil; split; reflexivity.
Qed.


Lemma process_line_hex_row n ns :
  Filereader.__process_line (data_line (map hex (n :: ns)))
  = Ok (map Z.of_N (n :: ns)).
Proof.
  assert (Hlits : Forall (fun lit => all_chars literal_char lit = true)
                         (map hex (n :: ns))).
  { apply Forall_map, Forall_forall. intros m _. apply hex_chars. }
  pose proof (mapM_parse_hex (n :: ns)) as Hparse.
  cbn [map] in *. rewrite (hex_unfold n) in *. cbn [append] in *.
  rewrite (process_line_data_line _ _ _ Hlits).
  cbn [PyStr.startswith Ascii.eqb Bool.eqb andb].
  now rewrite startswith_nil.
Qed.

Lemma process_line_dec_row n ns :
  (n <> 0%N -> Forall short (n :: ns) ->
   Filereader.__process_line (data_line (map dec (n :: ns)))
   = Ok (map Z.of_N (n :: ns)))
  /\ (n = 0%N ->
      Filereader.__process_line (data_line (map dec (n :: ns))) = Ok []).
Proof.
  assert (Hlits : Forall (fun lit => all_chars literal_char lit = true)
                         (map dec (n :: ns))).
  { apply Forall_map, Forall_forall. intros m _. apply dec_chars. }
  cbn [map] in *. destruct (dec_head n) as [c [x Hhead]].
  split.
  - intros Hn Hshort. pose proof (mapM_parse_dec (n :: ns) Hshort) as Hparse.
    cbn [map] in Hparse.
    destruct n as [|p]; [contradiction |].
    destruct (dec_positive_branch p) as [Hhex Hdec].
    rewrite Hhead in *. rewrite (process_line_data_line _ _ _ Hlits).
    now rewrite Hhex, Hdec.
  - intros Hn. subst n. injection Hhead as <- <-.
    change (dec 0) with "0" in *.
    now rewrite (process_line_data_line _ _ _ Hlits).
Qed.

(** X10. A line of hexadecimal literals [0x.., 0x.., ...,] yields the
    numbers written, in order. *)
Theorem process_line_hex_literals n ns :
  Filereader.__process_line (data_line (map hex (n :: ns)))
  = Ok (map Z.of_N (n :: ns)).
Proof. apply process_line_hex_row. Qed.

(** X11. A line of decimal literals yields the numbers written, in order,
    when the first of them is not zero and none is written with more
    digits than [int] accepts (4300); when the first number is zero the
    line yields nothing at all. *)
Theorem process_line_dec_literals n ns :
  (n <> 0%N -> Forall short (n :: ns) ->
   Filereader.__process_line (data_line (map dec (n :: ns)))
   = Ok (map Z.of_N (n :: ns)))
  /\ (n = 0%N ->
      Filereader.__process_line (data_line (map dec (n :: ns))) = Ok []).
Proof. apply process_line_dec_row. Qed.

Lemma process_line_dec_literals_witness :
  12%N <> 0%N /\ Forall short [12; 0; 255]%N /\
  Filereader.__process_line (data_line (map dec [12; 0; 255]%N))
  = Ok [12; 0; 255]%Z.
Proof.
  assert (H : Forall short [12; 0; 255]%N).
  { repeat constructor; vm_compute; discriminate. }
  split; [discriminate | split; [exact H |]].
  apply (proj1 (process_line_dec_literals 12 [0; 255]%N));
    [discriminate | exact H].
Defined.


(** *** Whole headers *)

Lemma inline_char_split c :
  inline_char c = true -> not_newline c = true /\ not_return c = true.
Proof. unfold inline_char. apply andb_prop. Qed.

(** A text without carriage returns is read as it is. *)
Lemma universal_newlines_plain s :
  all_chars not_return s = true -> PyStr.universal_newlines s = s.
Proof.
  induction s as [|c s IH]; [reflexivity |].
  cbn [all_chars PyStr.universal_newlines]. intros H.
  apply andb_prop in H. destruct H as [Hc Hs].
  unfold not_return in Hc. apply negb_true_iff in Hc.
  now rewrite Hc, (IH Hs).
Qed.

Lemma split_lines_app_line body rest :
  all_chars not_newline body = true ->
  PyStr.split_lines ((body ++ Samples.nl) ++ rest)
  = (body ++ Samples.nl) :: PyStr.split_lines rest.
Proof.
  induction body as [|x body IH]; cbn [append all_chars PyStr.split_lines];
    intros Hb.
  - reflexivity.
  - apply andb_prop in Hb. destruct Hb as [Hx Hb].
    unfold not_newline in Hx. apply negb_true_iff in Hx.
    now rewrite Hx, (IH Hb).
Qed.

Lemma text_of_plain ls :
  Forall one_line ls -> all_chars not_return (text_of ls) = true.
Proof.
  induction 1 as [|l ls [body [-> Hbody]] _ IH]; [reflexivity |].
  cbn [text_of fold_right]. fold (text_of ls).
  rewrite !all_chars_app, IH.
  rewrite (all_chars_impl _ _ _ (fun c H => proj2 (inline_char_split c H))
                          Hbody).
  reflexivity.
Qed.

Lemma split_lines_text_of ls :
  Forall one_line ls -> PyStr.split_lines (text_of ls) = ls.
Proof.
  induction 1 as [|l ls [body [-> Hbody]] _ IH]; [reflexivity |].
  cbn [text_of fold_right]. fold (text_of ls).
  rewrite split_lines_app_line, IH; [reflexivity |].
  exact (all_chars_impl _ _ _ (fun c H => proj1 (inline_char_split c H))
                        Hbody).
Qed.

Lemma lines_text_of ls :
  Forall one_line ls -> PyStr.lines (text_of ls) = ls.
Proof.
  intros H. unfold PyStr.lines.
  now rewrite (universal_newlines_plain _ (text_of_plain _ H)),
    split_lines_text_of.
Qed.

Lemma comma_join_chars P items :
  P ","%char = true ->
  Forall (fun item => all_chars P item = true) items ->
  all_chars P (comma_join items) = true.
Proof.
  intros Hcomma. induction 1 as [|item items Hitem _ IH]; [reflexivity |].
  cbn [comma_join]. rewrite !all_chars_app, Hitem, IH.
  cbn [all_chars]. now rewrite Hcomma.
Qed.

Lemma tokens_chars (P : ascii -> bool) lits :
  (forall c, literal_char c = true -> P c = true) ->
  P " "%char = true ->
  Forall (fun lit => all_chars literal_char lit = true) lits ->
  Forall (fun item => all_chars P item = true) (tokens lits).
Proof.
  intros HP Hblank H. destruct H as [|x rest Hx Hrest]; [constructor |].
  cbn [tokens]. constructor.
  - eapply all_chars_impl; [apply HP | exact Hx].
  - apply Forall_map. eapply Forall_impl; [| exact Hrest].
    intros lit Hlit. cbn [all_chars].
    now rewrite Hblank, (all_chars_impl _ _ _ HP Hlit).
Qed.

Lemma literal_inline c :
  literal_char c = true -> inline_char c = true.
Proof.
  destruct c as [[] [] [] [] [] [] [] []]; vm_compute; intros H;
    first [reflexivity | discriminate H].
Qed.

Lemma literal_not_sentinel c :
  literal_char c = true ->
  Ascii.eqb c "s" = false /\ Ascii.eqb c "}" = false.
Proof.
  destruct c as [[] [] [] [] [] [] [] []]; vm_compute; intros H;
    first [split; reflexivity | discriminate H].
Qed.

Lemma data_line_one_line lits :
  Forall (fun lit => all_chars literal_char lit = true) lits ->
  one_line (data_line lits).
Proof.
  intros Hlits. exists (comma_join (tokens lits)). split; [reflexivity |].
  apply comma_join_chars; [reflexivity |].
  apply tokens_chars; [apply literal_inline | reflexivity | exact Hlits].
Qed.

Lemma data_line_plain c x rest :
  literal_char c = true ->
  plain_line Filereader.default_startswith (data_line (String c x :: rest)).
Proof.
  intros Hc. destruct (literal_not_sentinel _ Hc) as [Hs Ht].
  unfold plain_line, data_line, Filereader.default_startswith.
  cbn [tokens comma_join append PyStr.startswith].
  now rewrite Hs, Ht.
Qed.

(** A header whose rows each extract to the numbers written extracts to
    all the numbers, row after row. *)
Lemma read_file_rows (lit : N -> string) rows file :
  (forall n, all_chars literal_char (lit n) = true) ->
  (forall n, lit n <> "") ->
  Forall (fun row =>
            row <> []
            /\ Filereader.__process_line (data_line (map lit row))
               = Ok (map Z.of_N row)) rows ->
  Filereader.read_file (Samples.single_file file (header_of lit rows)) file
                       Filereader.default_startswith
  = Ok (map Z.of_N (concat rows)).
Proof.
  intros Hchars Hne Hrows.
  assert (Hlits : forall row,
             Forall (fun l => all_chars literal_char l = true) (map lit row)).
  { intros row. apply Forall_map, Forall_forall. intros n _. apply Hchars. }
  unfold Filereader.read_file, Samples.single_file.
  rewrite String.eqb_refl. unfold header_of. rewrite lines_text_of.
  - cbn [Filereader.read_lines].
    change (PyStr.startswith Samples.declaration Filereader.default_startswith)
      with true. cbn iota.
    rewrite read_lines_collect.
    + assert (Hm : mapM Filereader.__process_line
                     (map (fun row => data_line (map lit row)) rows)
                   = Ok (map (map Z.of_N) rows)).
      { induction Hrows as [|row rows [_ Hrow] _ IH]; [reflexivity |].
        cbn [map mapM]. now rewrite Hrow, IH. }
      rewrite Hm. cbn [bind app]. cbn. now rewrite concat_map.
    + apply Forall_map. eapply Forall_impl; [| exact Hrows].
      intros row [Hrow _]. destruct row as [|n ns]; [contradiction |].
      cbn [map]. specialize (Hchars n). specialize (Hne n).
      destruct (lit n) as [|c x]; [contradiction |].
      apply data_line_plain. cbn [all_chars] in Hchars.
      now apply andb_prop in Hchars.
  - constructor.
    + eexists. split; [reflexivity | reflexivity].
    + apply Forall_app. split.
      * apply Forall_map, Forall_forall. intros row _.
        apply data_line_one_line, Hlits.
      * constructor; [| constructor].
        exists "};". split; reflexivity.
Qed.


(** X12. Reading back a header of hexadecimal rows gives all the numbers
    written, row after row, provided no row is empty. *)
Theorem read_file_hex_header rows file :
  Forall (fun row => row <> []) rows ->
  Filereader.read_file (Samples.single_file file (header_of hex rows)) file
                       Filereader.default_startswith
  = Ok (map Z.of_N (concat rows)).
Proof.
  intros Hrows. apply read_file_rows.
  - apply hex_chars.
  - intros n. rewrite hex_unfold. discriminate.
  - eapply Forall_impl; [| exact Hrows].
    intros row Hrow. split; [exact Hrow |].
    destruct row as [|n ns]; [contradiction |].
    apply process_line_hex_row.
Qed.

Lemma read_file_hex_header_witness :
  Forall (fun row => row <> []) [[0; 128]; [255]]%N
  /\ Filereader.read_file
       (Samples.single_file "kick.h" (header_of hex [[0; 128]; [255]]%N))
       "kick.h" Filereader.default_startswith
     = Ok [0; 128; 255]%Z.
Proof.
  split; [repeat constructor; discriminate |].
  apply (read_file_hex_header [[0; 128]; [255]]%N "kick.h").
  repeat constructor; discriminate.
Defined.

(** X13. Hexadecimal and decimal agree where the decimal branch is taken:
    when every row starts with a number that is not zero and no number is
    written with more digits than [int] accepts (4300), the header written
    in decimal extracts to the numbers written, the same sequence as the
    header written in hexadecimal. *)
Theorem read_file_dec_header rows file :
  Forall (fun row => exists n ns, row = n :: ns /\ n <> 0%N) rows ->
  Forall (Forall short) rows ->
  Filereader.read_file (Samples.single_file file (header_of dec rows)) file
                       Filereader.default_startswith
  = Ok (map Z.of_N (concat rows))
  /\ Filereader.read_file (Samples.single_file file (header_of dec rows)) file
                          Filereader.default_startswith
     = Filereader.read_file (Samples.single_file file (header_of hex rows))
                            file Filereader.default_startswith.
Proof.
  intros Hrows Hshort.
  assert (Hdec : Filereader.read_file
                   (Samples.single_file file (header_of dec rows)) file
                   Filereader.default_startswith
                 = Ok (map Z.of_N (concat rows))).
  { apply read_file_rows.
    - apply dec_chars.
    - intros n. destruct (dec_head n) as [c [x ->]]. discriminate.
    - rewrite Forall_forall in Hrows, Hshort. apply Forall_forall.
      intros row Hin. destruct (Hrows row Hin) as [n [ns [-> Hn]]].
      split; [discriminate |].
      apply process_line_dec_row; [exact Hn | exact (Hshort _ Hin)]. }
  split; [exact Hdec |].
  rewrite Hdec. symmetry. apply read_file_rows.
  - apply hex_chars.
  - intros n. rewrite hex_unfold. discriminate.
  - eapply Forall_impl; [| exact Hrows].
    intros row [n [ns [-> _]]]. split; [discriminate |].
    apply process_line_hex_row.
Qed.

Lemma read_file_dec_header_witness :
  Forall (fun row => exists n ns, row = n :: ns /\ n <> 0%N)
         [[12; 0]; [255]]%N
  /\ Forall (Forall short) [[12; 0]; [255]]%N
  /\ Filereader.read_file
       (Samples.single_file "kick.h" (header_of dec [[12; 0]; [255]]%N))
       "kick.h" Filereader.default_startswith
     = Ok [12; 0; 255]%Z.
Proof.
  assert (H : Forall (fun row => exists n ns, row = n :: ns /\ n <> 0%N)
                     [[12; 0]; [255]]%N).
  { repeat constructor; do 2 eexists; (split; [reflexivity | discriminate]). }
  assert (Hs : Forall (Forall short) [[12; 0]; [255]]%N).
  { repeat constructor; vm_compute; discriminate. }
  split; [exact H | split; [exact Hs |]].
  apply (proj1 (read_file_dec_header [[12; 0]; [255]]%N "kick.h" H Hs)).
Defined.

End Literal_parsing.

(* ------------------------------------------------------------------ *)
(** ** More on the driver *)
(* ------------------------------------------------------------------ *)

Section Driver_properties.

Import Main Pipeline.
Local Open Scope string_scope.
Local Open Scope list_scope.
Local Open Scope Z_scope.

Variable write_wavefile : list Z -> string -> option Z -> option exception.
Variable fs : Filereader.filesystem.

Lemma main_unfold args :
  main write_wavefile fs args
  = match Filereader.read_file fs (path args) (dec args) with
    | Err e => ([FileRead (path args)], Raised e)
    | Ok sample =>
        run_pipeline write_wavefile args [FileRead (path args)]
                     (cut_sample args sample)
    end.
Proof. reflexivity. Qed.

Lemma run_pipeline_unfold args trace sample :
  run_pipeline write_wavefile args trace sample
  = match
      (if truthy_int (ratio args)
       then Converter.reduce_samplerate sample
              (match ratio args with Some r => r | None => 0 end)
       else Ok sample)
    with
    | Err e => (trace, Raised e)
    | Ok reduced =>
        let shown :=
          if t args
          then Converter.twos_complement reduced Converter.default_max_value
          else reduced in
        let trace1 :=
          if p args then trace ++ [ConsolePrint shown] else trace in
        if truthy_str (wb args)
        then
          let data :=
            Converter.twos_complement shown Converter.default_max_value in
          let file := match wb args with Some w => w | None => "" end in
          match write_wavefile data file (sr args) with
          | Some e => (trace1 ++ [WavefileWrite data file (sr args)], Raised e)
          | None =>
              if plt args
              then ((trace1 ++ [WavefileWrite data file (sr args)])
                      ++ [PlotShow shown], Finished)
              else (trace1 ++ [WavefileWrite data file (sr args)], Finished)
          end
        else
          if plt args then (trace1 ++ [PlotShow shown], Finished)
          else (trace1, Finished)
    end.
Proof.
  unfold run_pipeline.
  destruct (if truthy_int (ratio args) then _ else _) as [reduced | e];
    [| reflexivity].
  cbv zeta. destruct (truthy_str (wb args)); [| reflexivity].
  now destruct (write_wavefile _ _ _).
Qed.

(** X14. In the driver a ratio of zero is taken as no ratio: the run with
    [-r 0] is the run without [-r], and the rate reducer, which fails on a
    ratio of zero, is not called. *)
Theorem main_ratio_zero_ignored print_flag plot_flag file declaration
        cut_by twos writeback samplerate :
  main write_wavefile fs
       (mk_Namespace print_flag plot_flag file declaration cut_by (Some 0)
                     twos writeback samplerate)
  = main write_wavefile fs
         (mk_Namespace print_flag plot_flag file declaration cut_by None
                       twos writeback samplerate).
Proof. reflexivity. Qed.

Lemma slice_to_range (P : Z -> Prop) l stop :
  Forall P l -> Forall P (slice_to l stop).
Proof.
  intros H. unfold slice_to.
  destruct (stop <? 0); now apply Forall_firstn_range.
Qed.

Lemma prepare_in_range args sample top :
  Forall (fun v => 0 <= v <= top) sample ->
  (forall r, ratio args = Some r -> 0 <= r < 2 ^ 53 /\ r * top < 2 ^ 53) ->
  exists prepared,
    prepare args sample = Ok prepared
    /\ Forall (fun v => 0 <= v <= top) prepared.
Proof.
  intros Hs Hr. unfold prepare.
  assert (Hc : Forall (fun v => 0 <= v <= top) (cut_sample args sample)).
  { unfold cut_sample. destruct (truthy_int (cut args));
      [now apply slice_to_range | exact Hs]. }
  destruct (ratio args) as [r |]; cbn [truthy_int].
  - destruct (Z.eqb_spec r 0) as [-> | Hr0]; cbn [negb].
    + eexists. split; [reflexivity | exact Hc].
    + destruct (Hr r eq_refl) as [Hb Ht].
      apply reduce_samplerate_in_range; [lia | exact Hc | exact Ht].
  - eexists. split; [reflexivity | exact Hc].
Qed.

(** X15. With [-t] and [-wb], on samples in [[0, 255]] and a ratio from 0
    to 2^45 (so that no window sum reaches 2^53), the wave writer is
    handed the sample as it was before the re-encoding (cut and reduced):
    the second remap undoes the first. *)
Theorem main_writeback_restores args sample file_out :
  Filereader.read_file fs (path args) (dec args) = Ok sample ->
  Forall (fun v => 0 <= v <= 255) sample ->
  (forall r, ratio args = Some r -> 0 <= r < 2 ^ 45) ->
  t args = true ->
  wb args = Some file_out -> file_out <> "" ->
  exists prepared,
    prepare args sample = Ok prepared
    /\ In (WavefileWrite prepared file_out (sr args))
          (fst (main write_wavefile fs args)).
Proof.
  intros Hread Hrange Hratio Ht Hwb Hout.
  rewrite main_unfold, Hread, run_pipeline_unfold. fold (prepare args sample).
  destruct (prepare_in_range args sample 255 Hrange)
    as [prepared [Hprep Hp]].
  { intros r Hr. specialize (Hratio r Hr).
    change (2 ^ 53) with (2 ^ 45 * 256). change (2 ^ 45) with 35184372088832
      in *. lia. }
  rewrite Hprep. exists prepared. split; [reflexivity |].
  cbv zeta. rewrite Ht, Hwb.
  assert (Htruthy : truthy_str (Some file_out) = true).
  { destruct file_out; [contradiction | reflexivity]. }
  rewrite Htruthy.
  rewrite twos_complement_involutive;
    [| unfold Converter.default_max_value; lia
     | eapply Forall_impl; [| exact Hp]; unfold Converter.default_max_value;
       cbn beta; intros; lia].
  destruct (write_wavefile prepared file_out (sr args));
    [| destruct (plt args)]; cbn [fst];
    rewrite ?in_app_iff; cbn [In]; tauto.
Qed.


End Driver_properties.

Lemma main_writeback_restores_witness :
  exists prepared,
    Pipeline.prepare
      (Main.mk_Namespace false false "sample.h" Filereader.default_startswith
                         None (Some 2%Z) true (Some "out.wav"%string)
                         (Some 5512%Z))
      [0; 1; 2]%Z
    = Ok prepared
    /\ In (Main.WavefileWrite prepared "out.wav" (Some 5512%Z))
          (fst (Main.main
                  (fun _ _ _ => None)
                  (Samples.single_file "sample.h" Samples.header_hex)
                  (Main.mk_Namespace false false "sample.h"
                                     Filereader.default_startswith
                                     None (Some 2%Z) true
                                     (Some "out.wav"%string) (Some 5512%Z)))).
Proof.
  apply (main_writeback_restores
           (fun _ _ _ => None)
           (Samples.single_file "sample.h" Samples.header_hex)
           (Main.mk_Namespace false false "sample.h"
                              Filereader.default_startswith
                              None (Some 2%Z) true (Some "out.wav"%string)
                              (Some 5512%Z))
           [0; 1; 2]%Z "out.wav").
  - reflexivity.
  - repeat constructor; lia.
  - intros r [= <-]. lia.
  - reflexivity.
  - reflexivity.
  - discriminate.
Defined.


(* ------------------------------------------------------------------ *)
(** ** The header writer *)
(* ------------------------------------------------------------------ *)

Section Write_header.

Import Literal Writeback.
Local Open Scope string_scope.

























End Write_header.

(* ------------------------------------------------------------------ *)
(** ** The layout theorems at work *)
(* ------------------------------------------------------------------ *)

Section Layout_examples.

Import Filereader.
Local Open Scope string_scope.
Local Open Scope list_scope.

Lemma read_file_layout_witness :
  read_file (Samples.single_file "sample.h" Samples.header_hex) "sample.h"
            default_startswith
  = Ok [0; 1; 2]%Z.
Proof.
  assert (Hdata : Forall (plain_line default_startswith)
                         [("0x00, 0x01, 0x02," ++ Samples.nl)%string]).
  { repeat constructor. }
  exact (proj1 (read_file_layout
                  (Samples.single_file "sample.h" Samples.header_hex)
                  "sample.h" default_startswith Samples.header_hex
                  [] Samples.declaration
                  [("0x00, 0x01, 0x02," ++ Samples.nl)%string]
                  eq_refl (Forall_nil _) eq_refl Hdata)
               Samples.terminator [] eq_refl eq_refl eq_refl).
Defined.

Lemma read_file_closed_before_marker_witness :
  read_file
    (Samples.single_file "sample.h"
                         (Samples.terminator ++ Samples.header_hex)%string)
    "sample.h" default_startswith
  = Ok [].
Proof.
  apply (read_file_closed_before_marker
           (Samples.single_file
              "sample.h" (Samples.terminator ++ Samples.header_hex)%string)
           "sample.h" default_startswith
           (Samples.terminator ++ Samples.header_hex)%string
           [] Samples.terminator (PyStr.lines Samples.header_hex)).
  - reflexivity.
  - reflexivity.
  - intros line [].
  - reflexivity.
  - reflexivity.
Defined.

End Layout_examples.
